(** * GeoJSONWorkerSource: the worker-side GeoJSON source of mapbox-gl-js

    A shallow embedding of [src/source/geojson_worker_source.js] and the
    properties of its registry, tile query, reload and loading logic.

    Conventions of the embedding.
    - A JavaScript value is a [JSValue]; numbers are the integers (the
      code under study only compares and clamps zoom levels).
    - An object used as a dictionary ([_geoJSONIndexes], [loaded], a
      feature's [properties]) is a [gmap] of its own properties.  A read
      that finds no own property goes on to [Object.prototype]
      ([member], [props_value]): the registry read of
      [loadGeoJSONTile] and the [props[key]] of the synthesized reduce
      see the inherited members.  Writing under the name [__proto__]
      would replace the prototype instead of adding an entry; the
      dictionaries are taken to keep [Object.prototype] as their
      prototype.
    - A history of the worker ([after]) lists the operations in the
      order in which they take effect: a [loadData] whose data is
      fetched stands where its data arrived, not where it was called.
    - Effects (mutation of the worker, callback invocations, exceptions)
      live in the monad [M]: a computation maps a [World] to a [Result]
      and a new world.  Whatever is observable from outside (callback
      calls, index queries, exceptions nobody caught) is appended to the
      world's [trace].
    - The collaborators that are not part of the file (JSON.parse, the
      fetcher, geojson-rewind, supercluster, geojson-vt, vt-pbf) are the
      fields of an [Env]; the general theorems quantify over it, the
      examples run in [ex_env].  The collaborators the code calls
      outside a [try] or inside one may throw ([Result]); [getTile] of
      an index and the encoder are taken to return. *)

From stdpp Require Import gmap strings list fin_maps.
From Stdlib Require Import ZArith.
From Stdlib.Strings Require Import Byte.

Set Warnings "-register-all".
Local Open Scope string_scope.
Local Open Scope Z_scope.

(** ** JavaScript values *)

Inductive JSValue : Type :=
| JUndefined
| JNull
| JBool (b : bool)
| JNum (n : Z)
| JStr (s : string)
| JArr (items : list JSValue)
| JObj (fields : list (string * JSValue))
| JErr (name message : string)
| JFun (name : string).

(** [!!v] in JavaScript is [truthy v]. *)
Definition truthy (v : JSValue) : bool :=
  match v with
  | JUndefined | JNull => false
  | JBool b => b
  | JNum n => negb (n =? 0)
  | JStr s => negb (String.eqb s "")
  | JArr _ | JObj _ | JErr _ _ | JFun _ => true
  end.

Definition typeof (v : JSValue) : string :=
  match v with
  | JUndefined => "undefined"
  | JBool _ => "boolean"
  | JNum _ => "number"
  | JStr _ => "string"
  | JNull | JArr _ | JObj _ | JErr _ _ => "object"
  | JFun _ => "function"
  end.

(** The names every plain object inherits from [Object.prototype]. *)
Definition object_prototype_members : list string :=
  ["constructor"; "toString"; "toLocaleString"; "valueOf"; "hasOwnProperty";
   "isPrototypeOf"; "propertyIsEnumerable"; "__proto__"; "__defineGetter__";
   "__defineSetter__"; "__lookupGetter__"; "__lookupSetter__"].

Definition inherited (k : string) : bool :=
  bool_decide (k ∈ object_prototype_members).

(** What a plain object without an own property [k] gives for [obj[k]]:
    the inherited function, [Object.prototype] itself for [__proto__]
    (seen from outside an object without entries), or undefined. *)
Definition inherited_value (k : string) : JSValue :=
  if inherited k then
    if String.eqb k "__proto__" then JObj []
    else if String.eqb k "constructor" then JFun "Object"
    else JFun k
  else JUndefined.

(** [dict[k]] for a dictionary of values that are not JavaScript values
    of this model: an own entry, an inherited member (truthy, and
    without the members of an entry), or nothing. *)
Inductive Member (V : Type) : Type :=
| OwnMember (v : V)
| InheritedMember
| NoMember.
Arguments OwnMember {V} v.
Arguments InheritedMember {V}.
Arguments NoMember {V}.

Definition member {V : Type} (dict : gmap string V) (k : string) : Member V :=
  match dict !! k with
  | Some v => OwnMember v
  | None => if inherited k then InheritedMember else NoMember
  end.

Fixpoint assoc (k : string) (fields : list (string * JSValue)) : JSValue :=
  match fields with
  | [] => JUndefined
  | (k', v) :: rest => if String.eqb k k' then v else assoc k rest
  end.


Definition invalid_geojson : JSValue :=
  JErr "Error" "Input data is not a valid GeoJSON object.".

(** ** Results and exceptions *)

Inductive Result (A : Type) : Type :=
| Ok (a : A)
| Throw (e : JSValue).
Arguments Ok {A} a.
Arguments Throw {A} e.

(** [v.k] for a name [k] that is not a built-in member (the code reads
    [data.features] only): reading a member of null or undefined throws. *)
Definition get_prop (v : JSValue) (k : string) : Result JSValue :=
  match v with
  | JObj fields => Ok (assoc k fields)
  | JUndefined | JNull => Throw (JErr "TypeError" "Cannot read property of null")
  | _ => Ok JUndefined
  end.

(** [array.forEach] with a body that may throw: the first exception ends
    the loop. *)
Fixpoint forEach {A S : Type} (body : S -> A -> Result S) (l : list A) (s : S)
  : Result S :=
  match l with
  | [] => Ok s
  | x :: rest =>
      match body s x with
      | Ok s' => forEach body rest s'
      | Throw e => Throw e
      end
  end.

(** ** Data of the worker *)

Record GeoJSONTile := { tile_features : list JSValue }.

(** [interface GeoJSONIndex]: whatever supercluster or geojson-vt built;
    the worker only calls [getTile]. *)
Record GeoJSONIndex := { getTile : Z -> Z -> Z -> option GeoJSONTile }.

Record Uint8Array := {
  buffer : list byte;
  byteOffset : nat;
  byteLength : nat
}.

(** The bytes a view shows of its buffer. *)
Definition view_bytes (a : Uint8Array) : list byte :=
  take (byteLength a) (drop (byteOffset a) (buffer a)).

(** [new Uint8Array(pbf)]: a copy of the bytes in a buffer of its own. *)
Definition new_Uint8Array (a : Uint8Array) : Uint8Array :=
  {| buffer := view_bytes a; byteOffset := 0%nat;
     byteLength := length (view_bytes a) |}.

(** The members of a [GeoJSONWrapper] this file reads or writes. *)
Record GeoJSONWrapper := {
  features : list JSValue;
  name : option string;
  rawData : option (list byte)
}.

Record TileCoord := { z : Z; x : Z; y : Z }.

Record WorkerTileParameters := {
  tp_source : string;
  tp_uid : N;
  tp_coord : TileCoord;
  tp_maxZoom : Z
}.

Record WorkerTile := { wt_params : WorkerTileParameters }.

Abbreviation Accumulator := (gmap string JSValue).

(** A feature's [properties]: an object, or [None] for null. *)
Abbreviation Properties := (option (gmap string JSValue)).

Record SuperclusterOptions := {
  so_settings : JSValue;
  so_initial : option (unit -> Accumulator);
  so_reduce : option (Accumulator -> Properties -> Result Accumulator)
}.

(** What [supercluster(options)] returns; the worker only calls [load]. *)
Record Supercluster := { load : JSValue -> Result GeoJSONIndex }.

Record LoadGeoJSONParameters := {
  lp_url : option string;
  lp_data : JSValue;
  lp_source : string;
  lp_cluster : bool;
  lp_superclusterOptions : option SuperclusterOptions;
  lp_geojsonVtOptions : JSValue;
  lp_clusterMapProperties : option (list string)
}.

(** The state of one [GeoJSONWorkerSource]; [loaded] is the field of
    the parent class. *)
Record Worker := {
  _geoJSONIndexes : gmap string GeoJSONIndex;
  loaded : gmap string (gmap N WorkerTile)
}.

(** What can be observed of a run. *)
Inductive Event : Type :=
| DataCallback (err : JSValue)
| TileCallback (err : JSValue) (data : option GeoJSONWrapper)
| IndexCallback (err : JSValue) (index : option GeoJSONIndex)
| GetTile (source : string) (zoom tx ty : Z)
| Uncaught (e : JSValue).

Record World := { worker : Worker; trace : list Event }.

(** ** The monad of worker computations *)

Definition M (A : Type) : Type := World -> Result A * World.

Definition ret {A} (a : A) : M A := fun w => (Ok a, w).

Definition bind {A B} (m : M A) (k : A -> M B) : M B :=
  fun w => match m w with
           | (Ok a, w') => k a w'
           | (Throw e, w') => (Throw e, w')
           end.

Notation "'let!' x ':=' m 'in' k" := (bind m (fun x => k))
  (at level 10, x name, m at level 100, k at level 200, only parsing).
Notation "'run!' m 'in' k" := (bind m (fun _ => k))
  (at level 10, m at level 100, k at level 200, only parsing).

(** A call into a collaborator that returns or throws. *)
Definition call {A} (r : Result A) : M A := fun w => (r, w).

(** [try { body } catch (e) { handler e }] *)
Definition try_catch {A} (body : M A) (handler : JSValue -> M A) : M A :=
  fun w => match body w with
           | (Throw e, w') => handler e w'
           | r => r
           end.

Definition this : M Worker := fun w => (Ok (worker w), w).

Definition modify (f : Worker -> Worker) : M unit :=
  fun w => (Ok tt, {| worker := f (worker w); trace := trace w |}).

Definition emit (ev : Event) : M unit :=
  fun w => (Ok tt, {| worker := worker w; trace := trace w ++ [ev] |}).

(** A continuation run by the event loop in a later turn: an exception
    it throws reaches no caller.  The step described is the turn in
    which the continuation runs: whatever the worker was asked between
    the call and that turn has taken effect before it, which is why a
    history lists a fetched [loadData] at the place of its completion. *)
Definition later (m : M unit) : M unit :=
  fun w => match m w with
           | (Throw e, w') => emit (Uncaught e) w'
           | r => r
           end.

(** ** Collaborators *)

Record Env := {
  JSON_parse : string -> Result JSValue;
  (** what the fetcher hands to its callback for a url: [(err, data)] *)
  fetched : string -> JSValue * JSValue;
  (** geojson-rewind works in place: the result is the value of [data]
      after the call *)
  rewind : JSValue -> Result JSValue;
  supercluster : option SuperclusterOptions -> Result Supercluster;
  geojsonvt : JSValue -> JSValue -> Result GeoJSONIndex;
  vtpbf : list (string * GeoJSONWrapper) -> Uint8Array
}.

(** Callbacks that record their arguments. *)
Definition data_callback (err : JSValue) : M unit := emit (DataCallback err).
Definition tile_callback (err : JSValue) (data : option GeoJSONWrapper) : M unit :=
  emit (TileCallback err data).
Definition index_callback (err : JSValue) (index : option GeoJSONIndex) : M unit :=
  emit (IndexCallback err index).

(** ** loadGeoJSONTile *)

Definition layer_name : string := "_geojsonTileLayer".

(** [index.getTile(z, x, y)], the query noted in the trace. *)
Definition query (source : string) (index : GeoJSONIndex) (zoom tx ty : Z)
  : M (option GeoJSONTile) :=
  run! emit (GetTile source zoom tx ty) in ret (getTile index zoom tx ty).

Definition loadGeoJSONTile (env : Env) (params : WorkerTileParameters)
    (callback : JSValue -> option GeoJSONWrapper -> M unit) : M unit :=
  let source := tp_source params in
  let coord := tp_coord params in
  let! self := this in
  match member (_geoJSONIndexes self) source with
  | NoMember => callback JNull None
  | InheritedMember =>
      (* line 41 takes the inherited member for an index; it has no
         [getTile], so the call of line 45 throws *)
      call (Throw (JErr "TypeError"
                     "this._geoJSONIndexes[source].getTile is not a function"))
  | OwnMember index =>
      let! geoJSONTile :=
        query source index (Z.min (z coord) (tp_maxZoom params))
          (x coord) (y coord) in
      match geoJSONTile with
      | None => callback JNull None
      | Some tile =>
          let geojsonWrapper :=
            {| features := tile_features tile; name := Some layer_name;
               rawData := None |} in
          let pbf := vtpbf env [(layer_name, geojsonWrapper)] in
          let pbf :=
            if negb (byteOffset pbf =? 0)%nat
               || negb (byteLength pbf =? length (buffer pbf))%nat
            then new_Uint8Array pbf else pbf in
          callback JNull
            (Some {| features := features geojsonWrapper;
                     name := name geojsonWrapper;
                     rawData := Some (buffer pbf) |})
      end
  end.

(** ** loadGeoJSON, loadData *)

Definition LoadGeoJSON : Type :=
  LoadGeoJSONParameters -> (JSValue -> JSValue -> M unit) -> M unit.

(** [params.url] as a condition: present and not the empty string. *)
Definition url_given (params : LoadGeoJSONParameters) : option string :=
  match lp_url params with
  | Some u => if String.eqb u "" then None else Some u
  | None => None
  end.

(** Modelled from the spec: the Data Fetcher ([ajax.getJSON]; its file is
    not among the sources at hand) "returns (error, parsedData)" and the
    work "suspends only at the Data Fetcher boundary via callback
    continuation": the continuation gets the pair in a later turn of the
    event loop. *)
Definition ajax_getJSON (env : Env) (u : string)
    (callback : JSValue -> JSValue -> M unit) : M unit :=
  let '(err, data) := fetched env u in
  later (callback err data).

Definition loadGeoJSON (env : Env) : LoadGeoJSON :=
  fun params callback =>
    match url_given params with
    | Some u => ajax_getJSON env u callback
    | None =>
        match lp_data params with
        | JStr text =>
            try_catch
              (let! parsed := call (JSON_parse env text) in
               callback JNull parsed)
              (fun e => callback invalid_geojson JUndefined)
        | _ => callback invalid_geojson JUndefined
        end
    end.

Definition set_index (source : string) (index : GeoJSONIndex) (wk : Worker)
  : Worker :=
  {| _geoJSONIndexes := <[source := index]> (_geoJSONIndexes wk);
     loaded := loaded wk |}.

Definition reset_loaded (source : string) (wk : Worker) : Worker :=
  {| _geoJSONIndexes := _geoJSONIndexes wk;
     loaded := <[source := ∅]> (loaded wk) |}.

(** [supercluster(options).load(data.features)], evaluated left to
    right. *)
Definition cluster_index (env : Env) (options : option SuperclusterOptions)
    (data : JSValue) : Result GeoJSONIndex :=
  match supercluster env options with
  | Throw e => Throw e
  | Ok engine =>
      match get_prop data "features" with
      | Throw e => Throw e
      | Ok points => load engine points
      end
  end.

(** The expression on the right of the assignment in [loadData]. *)
Definition build_index (env : Env) (params : LoadGeoJSONParameters)
    (data : JSValue) : Result GeoJSONIndex :=
  if lp_cluster params
  then cluster_index env (lp_superclusterOptions params) data
  else geojsonvt env data (lp_geojsonVtOptions params).

(** The arrow function [loadData] hands to the loader. *)
Definition loadData_continuation (env : Env) (params : LoadGeoJSONParameters)
    (callback : JSValue -> M unit) (err data : JSValue) : M unit :=
  if truthy err || negb (truthy data) then callback err
  else if negb (String.eqb (typeof data) "object") then callback invalid_geojson
  else
    let! data := call (rewind env data) in
    let! failure :=
      try_catch
        (let! index := call (build_index env params data) in
         run! modify (set_index (lp_source params) index) in
         ret None)
        (fun e => ret (Some e)) in
    match failure with
    | Some e => callback e
    | None =>
        run! modify (reset_loaded (lp_source params)) in
        callback JNull
    end.

Definition loadData (env : Env) (loader : LoadGeoJSON)
    (params : LoadGeoJSONParameters) (callback : JSValue -> M unit) : M unit :=
  loader params (loadData_continuation env params callback).

(** ** reloadTile *)

Inductive ReloadPath : Type := IncrementalReload | FullLoad.

(** The methods of the parent class [reloadTile] chooses between. *)
Record VectorTileWorkerSource := {
  super_reloadTile :
    WorkerTileParameters -> (JSValue -> option GeoJSONWrapper -> M unit) -> M unit;
  loadTile :
    WorkerTileParameters -> (JSValue -> option GeoJSONWrapper -> M unit) -> M unit
}.

(** The test [loaded && loaded[uid]] of [reloadTile].  A member that
    [this.loaded] only inherits under the source's name is truthy but
    holds nothing under a numeric uid, so the test fails for it as it
    does without an entry. *)
Definition reloadTile_path (wk : Worker) (params : WorkerTileParameters)
  : ReloadPath :=
  match loaded wk !! tp_source params with
  | Some tiles =>
      match tiles !! tp_uid params with
      | Some _ => IncrementalReload
      | None => FullLoad
      end
  | None => FullLoad
  end.

Definition reloadTile (parent : VectorTileWorkerSource)
    (params : WorkerTileParameters)
    (callback : JSValue -> option GeoJSONWrapper -> M unit) : M unit :=
  let! self := this in
  match reloadTile_path self params with
  | IncrementalReload => super_reloadTile parent params callback
  | FullLoad => loadTile parent params callback
  end.

(** Modelled from the spec: the recording of a served tile, which the
    spec places "in the surrounding tile-loading layer that owns the
    uid-to-request mapping" (the parent class, not among the sources at
    hand): the identity [(source, uid)] becomes Loaded. *)
Definition recordLoaded (source : string) (uid : N) (tile : WorkerTile)
    (wk : Worker) : Worker :=
  {| _geoJSONIndexes := _geoJSONIndexes wk;
     loaded := <[source := <[uid := tile]> (default ∅ (loaded wk !! source))]>
                 (loaded wk) |}.

(** ** removeSource *)

(** For an id that is only inherited the test of line 178 passes and
    the [delete] finds no own property: nothing changes, as when the
    test fails. *)

Definition removeSource (source : string) : M unit :=
  let! self := this in
  match _geoJSONIndexes self !! source with
  | Some _ =>
      modify (fun wk => {| _geoJSONIndexes := delete source (_geoJSONIndexes wk);
                           loaded := loaded wk |})
  | None => ret tt
  end.

(** ** _indexData *)

Definition type_error (message : string) : JSValue := JErr "TypeError" message.

(** [superclusterOptions.initial] as [_indexData] writes it. *)
Definition synthesized_initial (clusterMapProperties : list string)
  : unit -> Accumulator :=
  fun _ =>
    foldl (fun initial key => <[key := JArr []]> initial) ∅ clusterMapProperties.

(** [fields[key]] for the properties object of a feature: the own
    property, or what [Object.prototype] gives under that name. *)
Definition props_value (fields : gmap string JSValue) (key : string) : JSValue :=
  match fields !! key with
  | Some value => value
  | None => inherited_value key
  end.

(** [props[key]]: reading a member of null throws. *)
Definition props_get (props : Properties) (key : string) : Result JSValue :=
  match props with
  | None => Throw (type_error "Cannot read property of null")
  | Some fields => Ok (props_value fields key)
  end.

(** [accumulated[key].push(value)] *)
Definition push (accumulated : Accumulator) (key : string) (value : JSValue)
  : Result Accumulator :=
  match accumulated !! key with
  | Some (JArr items) => Ok (<[key := JArr (items ++ [value])]> accumulated)
  | Some _ => Throw (type_error "push is not a function")
  | None =>
      if inherited key then Throw (type_error "push is not a function")
      else Throw (type_error "Cannot read property 'push' of undefined")
  end.

(** [superclusterOptions.reduce] as [_indexData] writes it. *)
Definition synthesized_reduce (clusterMapProperties : list string)
  : Accumulator -> Properties -> Result Accumulator :=
  fun accumulated props =>
    forEach
      (fun accumulated key =>
         match props_get props key with
         | Throw e => Throw e
         | Ok value =>
             if truthy value then push accumulated key value else Ok accumulated
         end)
      clusterMapProperties accumulated.

(** The options [_indexData] passes to supercluster in cluster mode; the
    assignment to a member of an absent options object throws. *)
Definition cluster_options (params : LoadGeoJSONParameters)
  : Result (option SuperclusterOptions) :=
  match lp_clusterMapProperties params with
  | Some keys =>
      match lp_superclusterOptions params with
      | Some options =>
          Ok (Some {| so_settings := so_settings options;
                      so_initial := Some (synthesized_initial keys);
                      so_reduce := Some (synthesized_reduce keys) |})
      | None => Throw (type_error "Cannot set property 'initial' of undefined")
      end
  | None => Ok (lp_superclusterOptions params)
  end.

Definition _indexData (env : Env) (data : JSValue)
    (params : LoadGeoJSONParameters)
    (callback : JSValue -> option GeoJSONIndex -> M unit) : M unit :=
  try_catch
    (if lp_cluster params then
       let! superclusterOptions := call (cluster_options params) in
       let! index := call (cluster_index env superclusterOptions data) in
       callback JNull (Some index)
     else
       let! index := call (geojsonvt env data (lp_geojsonVtOptions params)) in
       callback JNull (Some index))
    (fun e => callback e None).

(** ** Reading a run *)

(** The world after a computation, and what it added to the trace. *)
Definition record (w : World) (evs : list Event) : World :=
  {| worker := worker w; trace := trace w ++ evs |}.

Definition fresh : Worker := {| _geoJSONIndexes := ∅; loaded := ∅ |}.

Definition start (wk : Worker) : World := {| worker := wk; trace := [] |}.

(** The arguments the tile callback was called with. *)
Definition answers (evs : list Event) : list (JSValue * option GeoJSONWrapper) :=
  omap (fun ev => match ev with
                  | TileCallback err data => Some (err, data)
                  | _ => None
                  end) evs.

(** The queries put to an index: source, zoom, x, y. *)
Definition queries (evs : list Event) : list (string * Z * Z * Z) :=
  omap (fun ev => match ev with
                  | GetTile source zoom tx ty => Some (source, zoom, tx, ty)
                  | _ => None
                  end) evs.

Definition tile_answer (env : Env) (wk : Worker) (params : WorkerTileParameters)
  : list (JSValue * option GeoJSONWrapper) :=
  answers (trace (loadGeoJSONTile env params tile_callback (start wk)).2).

(** The transport tile for a slice: the wrapper under the reserved layer
    name, with the bytes the encoder's view shows. *)
Definition transport_tile (env : Env) (tile : GeoJSONTile) : GeoJSONWrapper :=
  let wrapper := {| features := tile_features tile; name := Some layer_name;
                    rawData := None |} in
  {| features := tile_features tile; name := Some layer_name;
     rawData := Some (view_bytes (vtpbf env [(layer_name, wrapper)])) |}.

(** What the built-in loader hands to the continuation of [loadData] on
    its first call. *)
Definition delivered (env : Env) (params : LoadGeoJSONParameters)
  : JSValue * JSValue :=
  match url_given params with
  | Some u => fetched env u
  | None =>
      match lp_data params with
      | JStr text =>
          match JSON_parse env text with
          | Ok parsed => (JNull, parsed)
          | Throw _ => (invalid_geojson, JUndefined)
          end
      | _ => (invalid_geojson, JUndefined)
      end
  end.

(** The index a [loadData] call installs: the loader delivered no error
    and a truthy value of type object, and neither the normaliser nor the
    engine threw. *)
Definition installs (env : Env) (params : LoadGeoJSONParameters)
    (err data : JSValue) : option GeoJSONIndex :=
  if truthy err || negb (truthy data) then None
  else if negb (String.eqb (typeof data) "object") then None
  else match rewind env data with
       | Throw _ => None
       | Ok data' =>
           match build_index env params data' with
           | Ok index => Some index
           | Throw _ => None
           end
       end.

Definition replace_source (source : string) (index : GeoJSONIndex)
    (wk : Worker) : Worker :=
  reset_loaded source (set_index source index wk).

(** The test of [reloadTile] as a boolean. *)
Definition tracked (wk : Worker) (source : string) (uid : N) : bool :=
  match loaded wk !! source with
  | Some tiles => bool_decide (is_Some (tiles !! uid))
  | None => false
  end.

(** ** Histories of a worker *)

(** The operations of a history are listed in the order in which they
    take effect on the worker.  A [loadData] takes effect when its
    loader calls back: at once for literal data, in the later turn in
    which the data arrives for a url. *)

Inductive Action : Type :=
| ActLoadData (params : LoadGeoJSONParameters)
| ActTile (params : WorkerTileParameters)
| ActRecord (source : string) (uid : N) (tile : WorkerTile)
| ActRemoveSource (source : string).

Definition perform (env : Env) (a : Action) : M unit :=
  match a with
  | ActLoadData params => loadData env (loadGeoJSON env) params data_callback
  | ActTile params => loadGeoJSONTile env params tile_callback
  | ActRecord source uid tile => modify (recordLoaded source uid tile)
  | ActRemoveSource source => removeSource source
  end.

Definition after (env : Env) (history : list Action) (w : World) : World :=
  foldl (fun w a => (perform env a w).2) w history.

(** Following the spec's Reload Coordinator: an identity is Loaded once
    a tile service was recorded for it, and a [loadData] that replaces
    the source's entry starts a new generation in which every identity
    of that source is NotLoaded again.  The history is read from its
    most recent action backwards. *)
Fixpoint recorded_back (env : Env) (recent_first : list Action)
    (source : string) (uid : N) : bool :=
  match recent_first with
  | [] => false
  | ActRecord source' uid' _ :: older =>
      (String.eqb source' source && N.eqb uid' uid)
      || recorded_back env older source uid
  | ActLoadData params :: older =>
      let '(err, data) := delivered env params in
      match installs env params err data with
      | Some _ =>
          if String.eqb (lp_source params) source then false
          else recorded_back env older source uid
      | None => recorded_back env older source uid
      end
  | _ :: older => recorded_back env older source uid
  end.

Definition recorded (env : Env) (history : list Action) (source : string)
    (uid : N) : bool :=
  recorded_back env (rev history) source uid.

(** ** What the synthesized reduce adds *)


(** ** Concrete collaborators and inputs for the examples *)

Definition empty_index : GeoJSONIndex := {| getTile := fun _ _ _ => None |}.

(** An index built up to zoom 2 with one feature in every tile of that
    zoom. *)
Definition zoom2_index : GeoJSONIndex :=
  {| getTile := fun zoom _ _ =>
       if zoom =? 2 then Some {| tile_features := [JStr "feature"] |} else None |}.

(** JSON.parse on the two texts the examples use; no other text is
    evaluated. *)
Definition ex_parse (text : string) : Result JSValue :=
  if String.eqb text "null" then Ok JNull
  else if String.eqb text "[]" then Ok (JArr [])
  else Throw (JErr "SyntaxError" "Unexpected token").

Definition headless_collection : JSValue :=
  JObj [("type", JStr "FeatureCollection")].

Definition empty_collection : JSValue :=
  JObj [("type", JStr "FeatureCollection"); ("features", JArr [])].

Definition ex_fetched (u : string) : JSValue * JSValue :=
  if String.eqb u "/collection.json" then (JNull, headless_collection)
  else if String.eqb u "/empty.json" then (JNull, empty_collection)
  else (JErr "Error" "Not Found", JUndefined).

(** geojson-rewind as far as the examples go: a FeatureCollection is
    rewound by mapping over its [features], which throws when that member
    is no array; other values come back as they are (no ring is turned in
    the examples). *)
Definition ex_rewind (gj : JSValue) : Result JSValue :=
  match gj with
  | JObj fields =>
      match assoc "type" fields with
      | JStr kind =>
          if String.eqb kind "FeatureCollection" then
            match assoc "features" fields with
            | JArr _ => Ok gj
            | _ => Throw (type_error "Cannot read property 'map' of undefined")
            end
          else Ok gj
      | _ => Ok gj
      end
  | _ => Ok gj
  end.

(** supercluster as far as the examples go: [load] reads the length of
    its points, which throws when they are undefined. *)
Definition ex_supercluster (options : option SuperclusterOptions)
  : Result Supercluster :=
  Ok {| load := fun points =>
          match points with
          | JArr _ => Ok empty_index
          | _ => Throw (type_error "Cannot read property 'length' of undefined")
          end |}.

(** geojson-vt as far as the examples go: a value without a GeoJSON type
    is refused. *)
Definition ex_geojsonvt (data options : JSValue) : Result GeoJSONIndex :=
  match data with
  | JObj fields =>
      match assoc "type" fields with
      | JStr _ => Ok empty_index
      | _ => Throw invalid_geojson
      end
  | _ => Throw invalid_geojson
  end.

(** An encoder whose result is a view into a larger pool, as a node
    Buffer is. *)
Definition ex_vtpbf (layers : list (string * GeoJSONWrapper)) : Uint8Array :=
  {| buffer := [x00; x1a; x02; xff]; byteOffset := 1; byteLength := 2 |}.

Definition ex_env : Env :=
  {| JSON_parse := ex_parse; fetched := ex_fetched; rewind := ex_rewind;
     supercluster := ex_supercluster; geojsonvt := ex_geojsonvt;
     vtpbf := ex_vtpbf |}.

Definition ex_tile_params : WorkerTileParameters :=
  {| tp_source := "places"; tp_uid := 7%N;
     tp_coord := {| z := 5; x := 3; y := 1 |}; tp_maxZoom := 2 |}.

Definition ex_tile : WorkerTile := {| wt_params := ex_tile_params |}.

Definition ex_load_params (data : JSValue) (u : option string) (cluster : bool)
  : LoadGeoJSONParameters :=
  {| lp_url := u; lp_data := data; lp_source := "places";
     lp_cluster := cluster;
     lp_superclusterOptions :=
       Some {| so_settings := JObj []; so_initial := None; so_reduce := None |};
     lp_geojsonVtOptions := JObj []; lp_clusterMapProperties := Some ["name"] |}.

(** A worker that knows the source and has its tile 7 recorded. *)
Definition ex_worker (index : GeoJSONIndex) : Worker :=
  recordLoaded "places" 7 ex_tile
    {| _geoJSONIndexes := {[ "places" := index ]}; loaded := ∅ |}.

(** A loader that calls back with neither an error nor data. *)
Definition ex_silent_loader : LoadGeoJSON :=
  fun _ callback => callback JNull JUndefined.


(** ** Variations of parameters and collaborators *)

(** The same parameters with another literal [data]. *)
Definition with_data (params : LoadGeoJSONParameters) (data : JSValue)
  : LoadGeoJSONParameters :=
  {| lp_url := lp_url params; lp_data := data; lp_source := lp_source params;
     lp_cluster := lp_cluster params;
     lp_superclusterOptions := lp_superclusterOptions params;
     lp_geojsonVtOptions := lp_geojsonVtOptions params;
     lp_clusterMapProperties := lp_clusterMapProperties params |}.

(** The same parameters with another [url]. *)
Definition with_url (params : LoadGeoJSONParameters) (u : option string)
  : LoadGeoJSONParameters :=
  {| lp_url := u; lp_data := lp_data params; lp_source := lp_source params;
     lp_cluster := lp_cluster params;
     lp_superclusterOptions := lp_superclusterOptions params;
     lp_geojsonVtOptions := lp_geojsonVtOptions params;
     lp_clusterMapProperties := lp_clusterMapProperties params |}.

(** The same parameters with another [clusterMapProperties]. *)
Definition with_clusterMapProperties (params : LoadGeoJSONParameters)
    (keys : option (list string)) : LoadGeoJSONParameters :=
  {| lp_url := lp_url params; lp_data := lp_data params;
     lp_source := lp_source params; lp_cluster := lp_cluster params;
     lp_superclusterOptions := lp_superclusterOptions params;
     lp_geojsonVtOptions := lp_geojsonVtOptions params;
     lp_clusterMapProperties := keys |}.

(** The same collaborators with another geojson-vt. *)
Definition with_geojsonvt (env : Env)
    (engine : JSValue -> JSValue -> Result GeoJSONIndex) : Env :=
  {| JSON_parse := JSON_parse env; fetched := fetched env; rewind := rewind env;
     supercluster := supercluster env; geojsonvt := engine; vtpbf := vtpbf env |}.

(** The same collaborators with another supercluster. *)
Definition with_supercluster (env : Env)
    (engine : option SuperclusterOptions -> Result Supercluster) : Env :=
  {| JSON_parse := JSON_parse env; fetched := fetched env; rewind := rewind env;
     supercluster := engine; geojsonvt := geojsonvt env; vtpbf := vtpbf env |}.

(** [ex_env] with a geojson-vt that builds [zoom2_index] from whatever it
    is given. *)
Definition ex_env_zoom2 : Env :=
  with_geojsonvt ex_env (fun _ _ => Ok zoom2_index).

(** A loader that delivers a value as it is, with no error. *)
Definition ex_direct_loader (data : JSValue) : LoadGeoJSON :=
  fun _ callback => callback JNull data.


(** A callback that notes its call and then throws. *)
Definition ex_throwing_callback (err : JSValue) : M unit :=
  run! emit (DataCallback err) in call (Throw (JErr "Error" "callback failed")).

(** The index expression of [_indexData]: the options, then the engine. *)
Definition index_construction (env : Env) (params : LoadGeoJSONParameters)
    (data : JSValue) : Result GeoJSONIndex :=
  if lp_cluster params then
    match cluster_options params with
    | Ok options => cluster_index env options data
    | Throw e => Throw e
    end
  else geojsonvt env data (lp_geojsonVtOptions params).

(** * Properties *)

(** ** The monad *)


Lemma record_record (w : World) (evs evs' : list Event) :
  record (record w evs) evs' = record w (evs ++ evs').
Proof. unfold record. simpl. by rewrite app_assoc. Qed.

Lemma emit_record (ev : Event) (w : World) : emit ev w = (Ok tt, record w [ev]).
Proof. reflexivity. Qed.

(** ** The tile server *)

Lemma view_bytes_whole (a : Uint8Array) :
  byteOffset a = 0%nat -> byteLength a = length (buffer a) ->
  view_bytes a = buffer a.
Proof.
  intros Hoff Hlen. unfold view_bytes. rewrite Hoff, Hlen. simpl.
  apply firstn_all.
Qed.

(** Whatever the encoder's view looks like, the buffer handed on holds
    the view's bytes and nothing else. *)
Lemma normalised_buffer (a : Uint8Array) :
  buffer (if negb (byteOffset a =? 0)%nat
             || negb (byteLength a =? length (buffer a))%nat
          then new_Uint8Array a else a) = view_bytes a.
Proof.
  destruct (Nat.eqb_spec (byteOffset a) 0) as [Hoff | Hoff]; simpl; [| done].
  destruct (Nat.eqb_spec (byteLength a) (length (buffer a))) as [Hlen | Hlen];
    simpl; [| done].
  symmetry. by apply view_bytes_whole.
Qed.

Lemma member_own {V : Type} (dict : gmap string V) k v :
  dict !! k = Some v -> member dict k = OwnMember v.
Proof. intros Hlook. unfold member. by rewrite Hlook. Qed.

Lemma member_none {V : Type} (dict : gmap string V) k :
  dict !! k = None -> inherited k = false -> member dict k = NoMember.
Proof. intros Hlook Hplain. unfold member. by rewrite Hlook, Hplain. Qed.

Lemma member_inherited {V : Type} (dict : gmap string V) k :
  dict !! k = None -> inherited k = true -> member dict k = InheritedMember.
Proof. intros Hlook Hproto. unfold member. by rewrite Hlook, Hproto. Qed.

(** A tile query with any callback: what it does is decided by the read
    of the registry. *)
Lemma loadGeoJSONTile_run env params
    (callback : JSValue -> option GeoJSONWrapper -> M unit) w :
  let zoom := Z.min (z (tp_coord params)) (tp_maxZoom params) in
  let tx := x (tp_coord params) in
  let ty := y (tp_coord params) in
  loadGeoJSONTile env params callback w
  = match member (_geoJSONIndexes (worker w)) (tp_source params) with
    | NoMember => callback JNull None w
    | InheritedMember =>
        (Throw (JErr "TypeError"
                  "this._geoJSONIndexes[source].getTile is not a function"), w)
    | OwnMember index =>
        callback JNull (transport_tile env <$> getTile index zoom tx ty)
          (record w [GetTile (tp_source params) zoom tx ty])
    end.
Proof.
  intros zoom tx ty. unfold loadGeoJSONTile, bind, this, query, call. simpl.
  destruct (member (_geoJSONIndexes (worker w)) (tp_source params))
    as [index | |]; try done.
  fold zoom tx ty. unfold record.
  destruct (getTile index zoom tx ty) as [tile |]; simpl; [| done].
  unfold transport_tile. simpl. by rewrite normalised_buffer.
Qed.

Lemma loadGeoJSONTile_unregistered env params w :
  _geoJSONIndexes (worker w) !! tp_source params = None ->
  inherited (tp_source params) = false ->
  loadGeoJSONTile env params tile_callback w
  = (Ok tt, record w [TileCallback JNull None]).
Proof.
  intros Hnone Hplain. rewrite loadGeoJSONTile_run.
  by rewrite member_none.
Qed.

Lemma loadGeoJSONTile_inherited env params
    (callback : JSValue -> option GeoJSONWrapper -> M unit) w :
  _geoJSONIndexes (worker w) !! tp_source params = None ->
  inherited (tp_source params) = true ->
  loadGeoJSONTile env params callback w
  = (Throw (JErr "TypeError"
              "this._geoJSONIndexes[source].getTile is not a function"), w).
Proof.
  intros Hnone Hproto. rewrite loadGeoJSONTile_run.
  by rewrite member_inherited.
Qed.

Lemma loadGeoJSONTile_registered env params w index :
  _geoJSONIndexes (worker w) !! tp_source params = Some index ->
  let zoom := Z.min (z (tp_coord params)) (tp_maxZoom params) in
  let tx := x (tp_coord params) in
  let ty := y (tp_coord params) in
  loadGeoJSONTile env params tile_callback w
  = (Ok tt, record w [GetTile (tp_source params) zoom tx ty;
                      TileCallback JNull
                        (transport_tile env <$> getTile index zoom tx ty)]).
Proof.
  intros Hsome zoom tx ty. rewrite loadGeoJSONTile_run.
  rewrite (member_own _ _ index Hsome). fold zoom tx ty.
  unfold tile_callback, emit, record. simpl. by rewrite <- app_assoc.
Qed.

Lemma tile_answer_unregistered env params wk :
  _geoJSONIndexes wk !! tp_source params = None ->
  inherited (tp_source params) = false ->
  tile_answer env wk params = [(JNull, None)].
Proof.
  intros Hnone Hplain. unfold tile_answer.
  by rewrite loadGeoJSONTile_unregistered.
Qed.

Lemma tile_answer_inherited env params wk :
  _geoJSONIndexes wk !! tp_source params = None ->
  inherited (tp_source params) = true ->
  tile_answer env wk params = [].
Proof.
  intros Hnone Hproto. unfold tile_answer.
  by rewrite loadGeoJSONTile_inherited.
Qed.

Lemma tile_answer_registered env params wk index :
  _geoJSONIndexes wk !! tp_source params = Some index ->
  tile_answer env wk params
  = [(JNull, transport_tile env <$>
               getTile index (Z.min (z (tp_coord params)) (tp_maxZoom params))
                 (x (tp_coord params)) (y (tp_coord params)))].
Proof.
  intros Hsome. unfold tile_answer.
  by rewrite (loadGeoJSONTile_registered _ _ _ index).
Qed.




(** C5: a tile query against a registered source asks the index exactly
    once, at zoom [min(coord.z, maxZoom)], and answers with what the
    index holds there; when the requested zoom is above [maxZoom] the
    index is asked at [maxZoom] and not at the requested zoom. *)
Theorem loadGeoJSONTile_clamps_zoom env params w index :
  _geoJSONIndexes (worker w) !! tp_source params = Some index ->
  let coord := tp_coord params in
  let zoom := Z.min (z coord) (tp_maxZoom params) in
  exists evs,
    loadGeoJSONTile env params tile_callback w = (Ok tt, record w evs)
    /\ queries evs = [(tp_source params, zoom, x coord, y coord)]
    /\ answers evs
       = [(JNull, transport_tile env <$> getTile index zoom (x coord) (y coord))]
    /\ (tp_maxZoom params < z coord ->
        zoom = tp_maxZoom params
        /\ forall s tx ty, (s, z coord, tx, ty) ∉ queries evs).
Proof.
  intros Hsome coord zoom. subst zoom coord.
  eexists. split; [by apply loadGeoJSONTile_registered |].
  split; [done |]. split; [done |].
  intros Habove. split; [lia |].
  intros s tx ty Hin. simpl in Hin.
  apply list_elem_of_singleton in Hin.
  injection Hin as _ Hz _ _. lia.
Qed.

Lemma loadGeoJSONTile_clamps_zoom_witness :
  exists evs,
    loadGeoJSONTile ex_env ex_tile_params tile_callback
      (start (ex_worker zoom2_index))
    = (Ok tt, record (start (ex_worker zoom2_index)) evs)
    /\ queries evs = [("places", 2, 3, 1)]
    /\ (forall s tx ty, (s, 5, tx, ty) ∉ queries evs).
Proof.
  destruct (loadGeoJSONTile_clamps_zoom ex_env ex_tile_params
              (start (ex_worker zoom2_index)) zoom2_index)
    as (evs & Hrun & Hq & _ & Habove).
  - reflexivity.
  - exists evs. split; [exact Hrun |]. split; [exact Hq |].
    apply Habove. simpl. lia.
Defined.

(** C8: when the index has a slice for the tile, the callback gets, with
    no error, a wrapper that holds the features of the slice, carries
    the reserved name ['_geojsonTileLayer'] whatever the source is, and
    has as [rawData] the bytes vt-pbf produced for the one-layer tile
    made of that wrapper under that name. *)
Theorem loadGeoJSONTile_transport_tile env params w index tile :
  _geoJSONIndexes (worker w) !! tp_source params = Some index ->
  getTile index (Z.min (z (tp_coord params)) (tp_maxZoom params))
    (x (tp_coord params)) (y (tp_coord params)) = Some tile ->
  exists evs wrapper,
    loadGeoJSONTile env params tile_callback w = (Ok tt, record w evs)
    /\ answers evs = [(JNull, Some wrapper)]
    /\ features wrapper = tile_features tile
    /\ name wrapper = Some "_geojsonTileLayer"
    /\ rawData wrapper
       = Some (view_bytes
                 (vtpbf env
                    [("_geojsonTileLayer",
                      {| features := tile_features tile;
                         name := Some "_geojsonTileLayer";
                         rawData := None |})])).
Proof.
  intros Hsome Htile.
  eexists. exists (transport_tile env tile).
  split; [by apply loadGeoJSONTile_registered |].
  rewrite Htile. done.
Qed.

Lemma loadGeoJSONTile_transport_tile_witness :
  exists evs wrapper,
    loadGeoJSONTile ex_env ex_tile_params tile_callback
      (start (ex_worker zoom2_index))
    = (Ok tt, record (start (ex_worker zoom2_index)) evs)
    /\ answers evs = [(JNull, Some wrapper)]
    /\ features wrapper = [JStr "feature"]
    /\ name wrapper = Some "_geojsonTileLayer"
    /\ rawData wrapper = Some [x1a; x02].
Proof.
  destruct (loadGeoJSONTile_transport_tile ex_env ex_tile_params
              (start (ex_worker zoom2_index)) zoom2_index
              {| tile_features := [JStr "feature"] |})
    as (evs & wrapper & Hrun & Hans & Hf & Hn & Hraw);
    [reflexivity | reflexivity |].
  exists evs, wrapper. repeat split; assumption.
Defined.

(** ** The registry *)

Lemma removeSource_run (source : string) (w : World) :
  removeSource source w
  = (Ok tt, {| worker := {| _geoJSONIndexes := delete source (_geoJSONIndexes (worker w));
                            loaded := loaded (worker w) |};
               trace := trace w |}).
Proof.
  unfold removeSource, bind, this, modify, ret. simpl.
  destruct (_geoJSONIndexes (worker w) !! source) as [index |] eqn:Hlook; [done |].
  rewrite delete_id by done. by destruct w as [[] ?].
Qed.


Lemma reloadTile_dispatch parent params callback w :
  reloadTile parent params callback w
  = match reloadTile_path (worker w) params with
    | IncrementalReload => super_reloadTile parent params callback w
    | FullLoad => loadTile parent params callback w
    end.
Proof.
  unfold reloadTile, bind, this. simpl.
  by destruct (reloadTile_path (worker w) params).
Qed.



(** ** loadData *)

Section Continuation.
Variable env : Env.
Variable params : LoadGeoJSONParameters.

Lemma continuation_rejected err data w :
  truthy err || negb (truthy data) = true ->
  loadData_continuation env params data_callback err data w = (Ok tt, record w [DataCallback err]).
Proof.
  intros Hguard. unfold loadData_continuation.
  by rewrite Hguard.
Qed.

Lemma continuation_not_object err data w :
  truthy err || negb (truthy data) = false ->
  String.eqb (typeof data) "object" = false ->
  loadData_continuation env params data_callback err data w = (Ok tt, record w [DataCallback invalid_geojson]).
Proof.
  intros Hguard Htype. unfold loadData_continuation.
  by rewrite Hguard, Htype.
Qed.

Lemma continuation_rewind_throws err data w e :
  truthy err || negb (truthy data) = false ->
  String.eqb (typeof data) "object" = true ->
  rewind env data = Throw e ->
  loadData_continuation env params data_callback err data w = (Throw e, w).
Proof.
  intros Hguard Htype Hrewind. unfold loadData_continuation.
  rewrite Hguard, Htype. simpl. unfold bind, call. by rewrite Hrewind.
Qed.

Lemma continuation_build_throws err data w data' e :
  truthy err || negb (truthy data) = false ->
  String.eqb (typeof data) "object" = true ->
  rewind env data = Ok data' ->
  build_index env params data' = Throw e ->
  loadData_continuation env params data_callback err data w = (Ok tt, record w [DataCallback e]).
Proof.
  intros Hguard Htype Hrewind Hbuild.
  unfold loadData_continuation.
  rewrite Hguard, Htype. simpl. unfold bind, call, try_catch.
  by rewrite Hrewind, Hbuild.
Qed.

Lemma continuation_installs err data w data' index :
  truthy err || negb (truthy data) = false ->
  String.eqb (typeof data) "object" = true ->
  rewind env data = Ok data' ->
  build_index env params data' = Ok index ->
  loadData_continuation env params data_callback err data w
  = (Ok tt, {| worker := replace_source (lp_source params) index (worker w);
               trace := trace w ++ [DataCallback JNull] |}).
Proof.
  intros Hguard Htype Hrewind Hbuild.
  unfold loadData_continuation.
  rewrite Hguard, Htype. simpl. unfold bind, call, try_catch.
  by rewrite Hrewind, Hbuild.
Qed.

(** The worker after the continuation: replaced when an index was
    installed, untouched in every other case. *)
Lemma continuation_worker err data w :
  worker (loadData_continuation env params data_callback err data w).2
  = match installs env params err data with
    | Some index => replace_source (lp_source params) index (worker w)
    | None => worker w
    end.
Proof.
  unfold installs.
  destruct (truthy err || negb (truthy data)) eqn:Hguard.
  { by rewrite continuation_rejected. }
  destruct (String.eqb (typeof data) "object") eqn:Htype; simpl.
  2: { by rewrite continuation_not_object. }
  destruct (rewind env data) as [data' | e] eqn:Hrewind.
  2: { by rewrite (continuation_rewind_throws _ _ _ e). }
  destruct (build_index env params data') as [index | e] eqn:Hbuild.
  - by rewrite (continuation_installs _ _ _ data' index).
  - by rewrite (continuation_build_throws _ _ _ data' e).
Qed.

(** The loadData_continuation env params data_callback throws only what the normaliser threw. *)
Lemma continuation_throws err data w e w' :
  loadData_continuation env params data_callback err data w = (Throw e, w') ->
  w' = w /\ rewind env data = Throw e
  /\ installs env params err data = None.
Proof.
  unfold installs.
  destruct (truthy err || negb (truthy data)) eqn:Hguard.
  { by rewrite continuation_rejected. }
  destruct (String.eqb (typeof data) "object") eqn:Htype; simpl.
  2: { by rewrite continuation_not_object. }
  destruct (rewind env data) as [data' | e'] eqn:Hrewind.
  2: { rewrite (continuation_rewind_throws _ _ _ e') by done.
       intros [= <- <-]. done. }
  destruct (build_index env params data') as [index | e'] eqn:Hbuild.
  - by rewrite (continuation_installs _ _ _ data' index).
  - by rewrite (continuation_build_throws _ _ _ data' e').
Qed.

(** [loadData] with the built-in loader, in terms of the continuation
    applied to what the loader delivers: an exception of the
    loadData_continuation env params data_callback is turned into the invalid-input error when the data
    is literal text (the [try] of [loadGeoJSON] encloses the call of
    the callback) and is caught by nobody when the data was fetched. *)
Lemma loadData_builtin w :
  loadData env (loadGeoJSON env) params data_callback w
  = match loadData_continuation env params data_callback (delivered env params).1 (delivered env params).2 w with
    | (Throw e, w') =>
        match url_given params with
        | Some _ => (Ok tt, record w' [Uncaught e])
        | None => (Ok tt, record w' [DataCallback invalid_geojson])
        end
    | outcome => outcome
    end.
Proof.
  unfold loadData, loadGeoJSON, delivered.
  destruct (url_given params) as [u |].
  { unfold ajax_getJSON. destruct (fetched env u) as [err data]. simpl.
    unfold later. by destruct (loadData_continuation env params data_callback err data w) as [[[] | e] w']. }
  assert (forall w0, loadData_continuation env params data_callback invalid_geojson JUndefined w0
                     = (Ok tt, record w0 [DataCallback invalid_geojson]))
    as Hinvalid by (intros w0; by apply continuation_rejected).
  destruct (lp_data params) as [| | | | text | | | |]; simpl;
    try (by rewrite Hinvalid).
  unfold try_catch, bind, call.
  destruct (JSON_parse env text) as [parsed | e]; simpl.
  - destruct (loadData_continuation env params data_callback JNull parsed w) as [[[] | e] w']; [done |].
    apply Hinvalid.
  - by rewrite !Hinvalid.
Qed.

Lemma loadData_builtin_worker w :
  worker (loadData env (loadGeoJSON env) params data_callback w).2
  = match installs env params (delivered env params).1 (delivered env params).2 with
    | Some index => replace_source (lp_source params) index (worker w)
    | None => worker w
    end.
Proof.
  rewrite loadData_builtin.
  destruct (loadData_continuation env params data_callback (delivered env params).1 (delivered env params).2 w)
    as [[[] | e] w'] eqn:Hrun.
  - by rewrite <- continuation_worker, Hrun.
  - apply continuation_throws in Hrun as (-> & _ & ->).
    by destruct (url_given params).
Qed.

Lemma loadData_builtin_returns w :
  (loadData env (loadGeoJSON env) params data_callback w).1 = Ok tt.
Proof.
  rewrite loadData_builtin.
  destruct (loadData_continuation env params data_callback (delivered env params).1 (delivered env params).2 w)
    as [[[] | e] w'] eqn:Hrun; [done |].
  by destruct (url_given params).
Qed.
End Continuation.

(** A [loadData] that installs no index leaves the worker alone and
    reports through the callback, with one exception: fetched data on
    which the normaliser throws. *)
Lemma loadData_builtin_failure env params w :
  installs env params (delivered env params).1 (delivered env params).2 = None ->
  (exists e,
      loadData env (loadGeoJSON env) params data_callback w
      = (Ok tt, record w [DataCallback e]))
  \/ (exists u e,
         url_given params = Some u
         /\ rewind env (delivered env params).2 = Throw e
         /\ loadData env (loadGeoJSON env) params data_callback w
            = (Ok tt, record w [Uncaught e])).
Proof.
  intros Hnone. rewrite loadData_builtin.
  destruct (loadData_continuation env params data_callback
              (delivered env params).1 (delivered env params).2 w)
    as [[[] | e] w'] eqn:Hrun.
  - left.
    pose proof (continuation_worker env params (delivered env params).1
                  (delivered env params).2 w) as Hworker.
    rewrite Hrun, Hnone in Hworker. simpl in Hworker.
    revert Hrun. unfold installs in Hnone.
    destruct (truthy (delivered env params).1
              || negb (truthy (delivered env params).2)) eqn:Hguard.
    { rewrite continuation_rejected by done. intros [= <-]. eauto. }
    destruct (String.eqb (typeof (delivered env params).2) "object") eqn:Htype;
      simpl in Hnone.
    2: { rewrite continuation_not_object by done. intros [= <-]. eauto. }
    destruct (rewind env (delivered env params).2) as [data' | e] eqn:Hrewind.
    2: { by rewrite (continuation_rewind_throws _ _ _ _ _ e). }
    destruct (build_index env params data') as [index | e] eqn:Hbuild; [done |].
    rewrite (continuation_build_throws _ _ _ _ _ data' e) by done.
    intros [= <-]. eauto.
  - apply continuation_throws in Hrun as (-> & Hrewind & _).
    destruct (url_given params) as [u |]; [right | left]; eauto.
Qed.

(** C9: when the loader calls back with a falsy error and falsy data,
    [loadData] calls its callback once with that falsy error, which is a
    report of success, and neither the indexes nor the loaded-tile
    tracking of the worker change. *)
Theorem loadData_silent_loader env (loader : LoadGeoJSON) params err data w :
  (forall callback, loader params callback = callback err data) ->
  truthy err = false ->
  truthy data = false ->
  exists w',
    loadData env loader params data_callback w = (Ok tt, w')
    /\ trace w' = (trace w ++ [DataCallback err])%list
    /\ _geoJSONIndexes (worker w') = _geoJSONIndexes (worker w)
    /\ loaded (worker w') = loaded (worker w).
Proof.
  intros Hloader Herr Hdata. exists (record w [DataCallback err]).
  split; [| done].
  unfold loadData. rewrite Hloader. apply continuation_rejected.
  by rewrite Herr, Hdata.
Qed.

Lemma loadData_silent_loader_witness :
  exists w',
    loadData ex_env ex_silent_loader (ex_load_params JUndefined None false)
      data_callback (start (ex_worker zoom2_index)) = (Ok tt, w')
    /\ trace w' = [DataCallback JNull]
    /\ _geoJSONIndexes (worker w') !! "places" = Some zoom2_index
    /\ reloadTile_path (worker w') ex_tile_params = IncrementalReload.
Proof.
  destruct (loadData_silent_loader ex_env ex_silent_loader
              (ex_load_params JUndefined None false) JNull JUndefined
              (start (ex_worker zoom2_index)))
    as (w' & Hrun & Htrace & Hindexes & Hloaded);
    [reflexivity | reflexivity | reflexivity |].
  exists w'. split; [exact Hrun |]. split; [exact Htrace |].
  split.
  - rewrite Hindexes. reflexivity.
  - unfold reloadTile_path. rewrite Hloaded. reflexivity.
Defined.

(** The same with the built-in loader: the literal text [null] is valid
    JSON for a falsy value. *)
Lemma loadData_text_null w :
  loadData ex_env (loadGeoJSON ex_env) (ex_load_params (JStr "null") None false)
    data_callback w
  = (Ok tt, record w [DataCallback JNull]).
Proof. reflexivity. Qed.

(** Fetched data on which the normaliser throws: the exception reaches
    nobody and the callback of [loadData] is not called. *)
Lemma loadData_fetched_normaliser_fault env params u err data e w :
  url_given params = Some u ->
  fetched env u = (err, data) ->
  truthy err = false ->
  truthy data = true ->
  String.eqb (typeof data) "object" = true ->
  rewind env data = Throw e ->
  loadData env (loadGeoJSON env) params data_callback w
  = (Ok tt, record w [Uncaught e]).
Proof.
  intros Hurl Hfetched Herr Htruthy Htype Hrewind.
  rewrite loadData_builtin. unfold delivered.
  rewrite Hurl, Hfetched. simpl.
  rewrite (continuation_rewind_throws _ _ _ _ _ e); [done | | done | done].
  by rewrite Herr, Htruthy.
Qed.

(** C4 at a failing input: the document fetched from the url is a
    FeatureCollection without [features]; [rewind] runs before the [try]
    of [loadData], its exception leaves the continuation, and since the
    fetcher calls back in a later turn nobody catches it: the callback of
    [loadData] is never called. *)
Theorem loadData_normaliser_fault_escapes :
  loadData ex_env (loadGeoJSON ex_env)
    (ex_load_params JUndefined (Some "/collection.json") false)
    data_callback (start (ex_worker zoom2_index))
  = (Ok tt,
     record (start (ex_worker zoom2_index))
       [Uncaught (type_error "Cannot read property 'map' of undefined")]).
Proof. reflexivity. Qed.

(** The sibling path: for literal text the same exception is caught by
    the [try] of [loadGeoJSON] and reported as invalid input. *)
Lemma loadData_text_normaliser_fault env params text parsed e w :
  url_given params = None ->
  lp_data params = JStr text ->
  JSON_parse env text = Ok parsed ->
  truthy parsed = true ->
  String.eqb (typeof parsed) "object" = true ->
  rewind env parsed = Throw e ->
  loadData env (loadGeoJSON env) params data_callback w
  = (Ok tt, record w [DataCallback invalid_geojson]).
Proof.
  intros Hurl Hdata Hparse Htruthy Htype Hrewind.
  rewrite loadData_builtin. unfold delivered.
  rewrite Hurl, Hdata, Hparse. simpl.
  rewrite (continuation_rewind_throws _ _ _ _ _ e); [done | | done | done].
  by rewrite Htruthy.
Qed.

(** C6, as the claim has it, does not hold: the text [[]] parses to an
    array, [typeof] of an array is ['object'], so [loadData] hands it to
    the engine; in cluster mode the engine is given the array's
    [features], which is undefined, and what is reported is the engine's
    TypeError. *)
Lemma json_array_passes_type_check :
  ~ (forall env params text items w,
        url_given params = None ->
        lp_data params = JStr text ->
        JSON_parse env text = Ok (JArr items) ->
        loadData env (loadGeoJSON env) params data_callback w
        = (Ok tt, record w [DataCallback invalid_geojson])).
Proof.
  intros Hclaim.
  specialize (Hclaim ex_env (ex_load_params (JStr "[]") None true) "[]" []
                (start fresh) eq_refl eq_refl eq_refl).
  discriminate Hclaim.
Qed.

(** C6 (amended): when the literal text parses to an array, the array
    passes the type check of [loadData] and goes to the normaliser and
    the index engine.  If the normaliser throws, the invalid-input error
    is reported; if index construction throws, the error it threw is
    reported; in both cases the worker is unchanged.  If neither throws,
    the index is stored for the source and success is reported. *)
Theorem loadData_json_array env params text items w :
  url_given params = None ->
  lp_data params = JStr text ->
  JSON_parse env text = Ok (JArr items) ->
  loadData env (loadGeoJSON env) params data_callback w
  = match rewind env (JArr items) with
    | Throw _ => (Ok tt, record w [DataCallback invalid_geojson])
    | Ok data =>
        match build_index env params data with
        | Throw e => (Ok tt, record w [DataCallback e])
        | Ok index =>
            (Ok tt,
             {| worker := replace_source (lp_source params) index (worker w);
                trace := trace w ++ [DataCallback JNull] |})
        end
    end.
Proof.
  intros Hurl Hdata Hparse.
  destruct (rewind env (JArr items)) as [data | e] eqn:Hrewind.
  2: { by apply (loadData_text_normaliser_fault _ _ text (JArr items) e). }
  rewrite loadData_builtin. unfold delivered.
  rewrite Hurl, Hdata, Hparse. simpl.
  destruct (build_index env params data) as [index | e] eqn:Hbuild.
  - by rewrite (continuation_installs _ _ _ _ _ data index).
  - by rewrite (continuation_build_throws _ _ _ _ _ data e).
Qed.

Lemma loadData_json_array_witness :
  loadData ex_env (loadGeoJSON ex_env) (ex_load_params (JStr "[]") None true)
    data_callback (start fresh)
  = (Ok tt,
     record (start fresh)
       [DataCallback (type_error "Cannot read property 'length' of undefined")]).
Proof.
  rewrite (loadData_json_array ex_env (ex_load_params (JStr "[]") None true)
             "[]" [] (start fresh) eq_refl eq_refl eq_refl).
  reflexivity.
Defined.

(** ** The reload coordinator *)

Lemma reloadTile_path_tracked wk params :
  reloadTile_path wk params
  = if tracked wk (tp_source params) (tp_uid params)
    then IncrementalReload else FullLoad.
Proof.
  unfold reloadTile_path, tracked.
  destruct (loaded wk !! tp_source params) as [tiles |]; [| done].
  by destruct (tiles !! tp_uid params).
Qed.

Lemma tracked_replace_source source index wk source' uid :
  tracked (replace_source source index wk) source' uid
  = if String.eqb source source' then false else tracked wk source' uid.
Proof.
  unfold tracked, replace_source, reset_loaded, set_index. simpl.
  destruct (String.eqb_spec source source') as [-> | Hne].
  - by rewrite lookup_insert_eq.
  - by rewrite lookup_insert_ne.
Qed.

Lemma tracked_recordLoaded source uid tile wk source' uid' :
  tracked (recordLoaded source uid tile wk) source' uid'
  = (String.eqb source source' && N.eqb uid uid') || tracked wk source' uid'.
Proof.
  unfold tracked, recordLoaded. simpl.
  destruct (String.eqb_spec source source') as [-> | Hne]; simpl.
  2: { by rewrite lookup_insert_ne. }
  rewrite lookup_insert_eq.
  destruct (N.eqb_spec uid uid') as [-> | Hne]; simpl.
  - rewrite lookup_insert_eq.
    destruct (loaded wk !! source'); by rewrite bool_decide_eq_true_2.
  - rewrite lookup_insert_ne by done.
    destruct (loaded wk !! source') as [tiles |]; simpl; [done |].
    by rewrite lookup_empty.
Qed.

Lemma loadGeoJSONTile_worker env params w :
  worker (loadGeoJSONTile env params tile_callback w).2 = worker w.
Proof.
  rewrite loadGeoJSONTile_run.
  by destruct (member (_geoJSONIndexes (worker w)) (tp_source params)).
Qed.

Lemma perform_tracked env a w source uid :
  tracked (worker (perform env a w).2) source uid
  = match a with
    | ActRecord source' uid' _ =>
        (String.eqb source' source && N.eqb uid' uid)
        || tracked (worker w) source uid
    | ActLoadData params =>
        match installs env params (delivered env params).1
                (delivered env params).2 with
        | Some _ =>
            if String.eqb (lp_source params) source then false
            else tracked (worker w) source uid
        | None => tracked (worker w) source uid
        end
    | _ => tracked (worker w) source uid
    end.
Proof.
  destruct a as [params | params | source' uid' tile | source']; simpl.
  - rewrite loadData_builtin_worker.
    destruct (installs env params _ _); [| done].
    apply tracked_replace_source.
  - by rewrite loadGeoJSONTile_worker.
  - apply tracked_recordLoaded.
  - by rewrite removeSource_run.
Qed.

Lemma after_snoc env history a w :
  after env (history ++ [a]) w = (perform env a (after env history w)).2.
Proof. unfold after. by rewrite foldl_app. Qed.

Lemma after_tracked env history source uid :
  tracked (worker (after env history (start fresh))) source uid
  = recorded env history source uid.
Proof.
  unfold recorded.
  induction history as [| a history IH] using rev_ind; [done |].
  rewrite after_snoc, rev_unit, perform_tracked, IH.
  destruct a as [params | params | source' uid' tile | source']; simpl; try done.
  by destruct (delivered env params).
Qed.

(** C3, as the claim has it, does not hold: a [loadData] whose text is
    [null] reports success (its callback gets no error) and resets
    nothing, so the identity recorded before it still takes the
    incremental path. *)
Lemma reported_success_keeps_tracking :
  ~ (forall env params tile_params w w',
        loadData env (loadGeoJSON env) params data_callback w = (Ok tt, w') ->
        trace w' = (trace w ++ [DataCallback JNull])%list ->
        lp_source params = tp_source tile_params ->
        reloadTile_path (worker w') tile_params = FullLoad).
Proof.
  intros Hclaim.
  specialize (Hclaim ex_env (ex_load_params (JStr "null") None false)
                ex_tile_params (start (ex_worker zoom2_index)) _
                (loadData_text_null _) eq_refl eq_refl).
  discriminate Hclaim.
Qed.

(** C3 (amended): after any history of a worker, [reloadTile] takes the
    incremental path (the parent's [reloadTile]) exactly when a tile
    load was recorded for that [(source, uid)] since the last [loadData]
    that installed an index for the source, and the full-load path
    ([loadTile]) otherwise; and after a further [loadData] for the
    source that installs an index (the loader delivers no error and a
    truthy value of type object, and neither the normaliser nor the
    engine throws) the tracking of the source is empty and the same pair
    takes the full-load path. *)
Theorem reloadTile_follows_history env history params :
  let wk := worker (after env history (start fresh)) in
  let was_recorded := recorded env history (tp_source params) (tp_uid params) in
  (reloadTile_path wk params = IncrementalReload <-> was_recorded = true)
  /\ (reloadTile_path wk params = FullLoad <-> was_recorded = false)
  /\ (forall parent callback w,
        worker w = wk ->
        reloadTile parent params callback w
        = if was_recorded then super_reloadTile parent params callback w
          else loadTile parent params callback w)
  /\ (forall load_params index,
        lp_source load_params = tp_source params ->
        installs env load_params (delivered env load_params).1
          (delivered env load_params).2 = Some index ->
        let wk' :=
          worker (after env (history ++ [ActLoadData load_params]) (start fresh)) in
        loaded wk' !! tp_source params = Some ∅
        /\ reloadTile_path wk' params = FullLoad).
Proof.
  intros wk was_recorded.
  assert (reloadTile_path wk params
          = if was_recorded then IncrementalReload else FullLoad) as Hpath.
  { rewrite reloadTile_path_tracked. unfold wk, was_recorded.
    by rewrite after_tracked. }
  split; [rewrite Hpath; by destruct was_recorded |].
  split; [rewrite Hpath; by destruct was_recorded |].
  split.
  { intros parent callback w Hw. rewrite reloadTile_dispatch, Hw, Hpath.
    by destruct was_recorded. }
  intros load_params index Hsource Hinstalls wk'.
  assert (wk' = replace_source (tp_source params) index wk) as ->.
  { unfold wk'. rewrite after_snoc. simpl.
    by rewrite loadData_builtin_worker, Hinstalls, Hsource. }
  split.
  - unfold replace_source, reset_loaded. simpl. apply lookup_insert_eq.
  - rewrite reloadTile_path_tracked, tracked_replace_source.
    by rewrite String.eqb_refl.
Qed.

Lemma reloadTile_follows_history_witness :
  reloadTile_path
    (worker (after ex_env [ActRecord "places" 7 ex_tile] (start fresh)))
    ex_tile_params = IncrementalReload
  /\ reloadTile_path
       (worker (after ex_env
                  [ActRecord "places" 7 ex_tile;
                   ActLoadData (ex_load_params JUndefined (Some "/empty.json") false)]
                  (start fresh)))
       ex_tile_params = FullLoad.
Proof.
  destruct (reloadTile_follows_history ex_env [ActRecord "places" 7 ex_tile]
              ex_tile_params) as (Hincremental & _ & _ & Hreset).
  split.
  - apply Hincremental. reflexivity.
  - apply (Hreset (ex_load_params JUndefined (Some "/empty.json") false)
             empty_index); reflexivity.
Defined.

(** ** Cluster aggregation *)














(** * Further properties of the worker *)

(** ** Tile queries *)


(** X2: requests at or above [maxZoom] for the same source, [x] and [y]
    all get the same answer, whatever zoom they ask for: they are all
    served from the tile at [maxZoom]. *)
Theorem loadGeoJSONTile_overzoom_same_answer env wk p1 p2 :
  tp_source p1 = tp_source p2 ->
  tp_maxZoom p1 = tp_maxZoom p2 ->
  x (tp_coord p1) = x (tp_coord p2) ->
  y (tp_coord p1) = y (tp_coord p2) ->
  tp_maxZoom p1 <= z (tp_coord p1) ->
  tp_maxZoom p2 <= z (tp_coord p2) ->
  tile_answer env wk p1 = tile_answer env wk p2.
Proof.
  intros Hsource Hmax Hx Hy Hz1 Hz2.
  destruct (_geoJSONIndexes wk !! tp_source p1) as [index |] eqn:Hlook.
  - rewrite (tile_answer_registered _ p1 _ index Hlook).
    rewrite Hsource in Hlook.
    rewrite (tile_answer_registered _ p2 _ index Hlook).
    rewrite (Z.min_r _ _ Hz1), (Z.min_r _ _ Hz2).
    by rewrite Hmax, Hx, Hy.
  - destruct (inherited (tp_source p1)) eqn:Hinherited.
    + rewrite (tile_answer_inherited _ p1 _ Hlook Hinherited).
      rewrite Hsource in Hlook, Hinherited.
      by rewrite (tile_answer_inherited _ p2 _ Hlook Hinherited).
    + rewrite (tile_answer_unregistered _ p1 _ Hlook Hinherited).
      rewrite Hsource in Hlook, Hinherited.
      by rewrite (tile_answer_unregistered _ p2 _ Hlook Hinherited).
Qed.

Lemma loadGeoJSONTile_overzoom_same_answer_witness :
  tile_answer ex_env (ex_worker zoom2_index) ex_tile_params
  = tile_answer ex_env (ex_worker zoom2_index)
      {| tp_source := "places"; tp_uid := 8%N;
         tp_coord := {| z := 9; x := 3; y := 1 |}; tp_maxZoom := 2 |}.
Proof.
  apply loadGeoJSONTile_overzoom_same_answer; simpl; first [reflexivity | lia].
Defined.

Lemma view_bytes_length (a : Uint8Array) :
  (byteOffset a + byteLength a <= length (buffer a))%nat ->
  length (view_bytes a) = byteLength a.
Proof.
  intros Hbounds. unfold view_bytes. rewrite length_take, length_drop. lia.
Qed.

(** X3: when the encoder's view lies inside its buffer, the [rawData]
    of the transport tile has exactly [byteLength] bytes: bytes of the
    buffer outside the view are never handed on. *)
Theorem loadGeoJSONTile_rawData_length env params w index tile :
  _geoJSONIndexes (worker w) !! tp_source params = Some index ->
  getTile index (Z.min (z (tp_coord params)) (tp_maxZoom params))
    (x (tp_coord params)) (y (tp_coord params)) = Some tile ->
  let pbf :=
    vtpbf env [(layer_name,
                {| features := tile_features tile; name := Some layer_name;
                   rawData := None |})] in
  (byteOffset pbf + byteLength pbf <= length (buffer pbf))%nat ->
  exists wrapper bytes,
    tile_answer env (worker w) params = [(JNull, Some wrapper)]
    /\ rawData wrapper = Some bytes
    /\ length bytes = byteLength pbf.
Proof.
  intros Hlook Htile pbf Hbounds.
  exists (transport_tile env tile), (view_bytes pbf).
  rewrite (tile_answer_registered _ _ _ index Hlook), Htile.
  split; [done |]. split; [done |].
  by apply view_bytes_length.
Qed.

Lemma loadGeoJSONTile_rawData_length_witness :
  exists wrapper bytes,
    tile_answer ex_env (ex_worker zoom2_index) ex_tile_params
    = [(JNull, Some wrapper)]
    /\ rawData wrapper = Some bytes
    /\ length bytes = 2%nat.
Proof.
  apply (loadGeoJSONTile_rawData_length ex_env ex_tile_params
           (start (ex_worker zoom2_index)) zoom2_index
           {| tile_features := [JStr "feature"] |});
    [reflexivity | reflexivity | simpl; lia].
Defined.

(** ** Loading data *)

(** What [installs] being an index says about a run. *)
Lemma installs_Some env params err data index :
  installs env params err data = Some index ->
  truthy err || negb (truthy data) = false
  /\ String.eqb (typeof data) "object" = true
  /\ exists data', rewind env data = Ok data'
                   /\ build_index env params data' = Ok index.
Proof.
  unfold installs.
  destruct (truthy err || negb (truthy data)); [done |].
  destruct (String.eqb (typeof data) "object"); [| done]. simpl.
  destruct (rewind env data) as [data' | e]; [| done].
  destruct (build_index env params data') as [index' | e] eqn:Hbuild; [| done].
  intros [= <-]. eauto.
Qed.

Lemma replace_source_index source index wk :
  _geoJSONIndexes (replace_source source index wk) !! source = Some index.
Proof. unfold replace_source, reset_loaded, set_index. simpl. apply lookup_insert_eq. Qed.

Lemma replace_source_other source index wk source' :
  source <> source' ->
  _geoJSONIndexes (replace_source source index wk) !! source'
  = _geoJSONIndexes wk !! source'
  /\ loaded (replace_source source index wk) !! source' = loaded wk !! source'.
Proof.
  intros Hne. unfold replace_source, reset_loaded, set_index. simpl.
  by rewrite !lookup_insert_ne.
Qed.

(** X4: after a [loadData] that installs an index, a tile query for that
    source answers with what the installed index holds at the clamped
    zoom: the tile server and the engine's index agree. *)
Theorem loadData_then_tile_query env params tile_params index w :
  installs env params (delivered env params).1 (delivered env params).2
  = Some index ->
  tp_source tile_params = lp_source params ->
  tile_answer env
    (worker (loadData env (loadGeoJSON env) params data_callback w).2)
    tile_params
  = [(JNull,
      transport_tile env <$>
        getTile index
          (Z.min (z (tp_coord tile_params)) (tp_maxZoom tile_params))
          (x (tp_coord tile_params)) (y (tp_coord tile_params)))].
Proof.
  intros Hinstalls Hsource.
  rewrite loadData_builtin_worker, Hinstalls.
  apply tile_answer_registered. rewrite Hsource. apply replace_source_index.
Qed.

Lemma loadData_then_tile_query_witness :
  tile_answer ex_env_zoom2
    (worker (loadData ex_env_zoom2 (loadGeoJSON ex_env_zoom2)
               (ex_load_params JUndefined (Some "/empty.json") false)
               data_callback (start fresh)).2)
    ex_tile_params
  = [(JNull,
      Some {| features := [JStr "feature"]; name := Some "_geojsonTileLayer";
              rawData := Some [x1a; x02] |})].
Proof.
  rewrite (loadData_then_tile_query ex_env_zoom2
             (ex_load_params JUndefined (Some "/empty.json") false)
             ex_tile_params zoom2_index (start fresh) eq_refl eq_refl).
  reflexivity.
Defined.

(** X5: [loadData] for one source touches neither the index nor the
    loaded-tile tracking of any other source, whatever its outcome. *)
Theorem loadData_other_sources_untouched env params w source :
  source <> lp_source params ->
  let wk := worker (loadData env (loadGeoJSON env) params data_callback w).2 in
  _geoJSONIndexes wk !! source = _geoJSONIndexes (worker w) !! source
  /\ loaded wk !! source = loaded (worker w) !! source.
Proof.
  intros Hne wk. unfold wk. rewrite loadData_builtin_worker.
  destruct (installs env params _ _) as [index |]; [| done].
  by apply replace_source_other.
Qed.

Lemma loadData_other_sources_untouched_witness :
  let wk :=
    worker (loadData ex_env (loadGeoJSON ex_env)
              {| lp_url := Some "/empty.json"; lp_data := JUndefined;
                 lp_source := "roads"; lp_cluster := false;
                 lp_superclusterOptions := None; lp_geojsonVtOptions := JObj [];
                 lp_clusterMapProperties := None |}
              data_callback (start (ex_worker zoom2_index))).2 in
  _geoJSONIndexes wk !! "places" = Some zoom2_index
  /\ reloadTile_path wk ex_tile_params = IncrementalReload.
Proof.
  intros wk.
  destruct (loadData_other_sources_untouched ex_env
              {| lp_url := Some "/empty.json"; lp_data := JUndefined;
                 lp_source := "roads"; lp_cluster := false;
                 lp_superclusterOptions := None; lp_geojsonVtOptions := JObj [];
                 lp_clusterMapProperties := None |}
              (start (ex_worker zoom2_index)) "places")
    as [Hindex Hloaded]; [done |].
  fold wk in Hindex, Hloaded. split.
  - rewrite Hindex. reflexivity.
  - unfold reloadTile_path.
    change (tp_source ex_tile_params) with "places".
    rewrite Hloaded. reflexivity.
Defined.

(** X6: a [loadData] that installs no index (loader error, falsy or
    non-object data, an exception of the normaliser or of the engine)
    leaves the worker exactly as it was: every tile query and every
    reload decision comes out as before the call. *)
Theorem loadData_failure_changes_nothing env params w :
  installs env params (delivered env params).1 (delivered env params).2 = None ->
  let wk := worker (loadData env (loadGeoJSON env) params data_callback w).2 in
  wk = worker w
  /\ (forall tile_params,
        tile_answer env wk tile_params = tile_answer env (worker w) tile_params)
  /\ (forall tile_params,
        reloadTile_path wk tile_params = reloadTile_path (worker w) tile_params).
Proof.
  intros Hnone wk.
  assert (wk = worker w) as ->.
  { unfold wk. by rewrite loadData_builtin_worker, Hnone. }
  done.
Qed.

Lemma loadData_failure_changes_nothing_witness :
  worker (loadData ex_env (loadGeoJSON ex_env)
            (ex_load_params (JStr "[]") None true)
            data_callback (start (ex_worker zoom2_index))).2
  = ex_worker zoom2_index.
Proof.
  apply (loadData_failure_changes_nothing ex_env
           (ex_load_params (JStr "[]") None true)
           (start (ex_worker zoom2_index))).
  reflexivity.
Defined.

(** The continuation with any callback. *)
Lemma continuation_run env params (callback : JSValue -> M unit) err data w :
  loadData_continuation env params callback err data w
  = if truthy err || negb (truthy data) then callback err w
    else if negb (String.eqb (typeof data) "object") then callback invalid_geojson w
    else match rewind env data with
         | Throw e => (Throw e, w)
         | Ok data' =>
             match build_index env params data' with
             | Throw e => callback e w
             | Ok index =>
                 callback JNull
                   {| worker := replace_source (lp_source params) index (worker w);
                      trace := trace w |}
             end
         end.
Proof.
  unfold loadData_continuation.
  destruct (truthy err || negb (truthy data)); [done |].
  destruct (negb (String.eqb (typeof data) "object")); [done |].
  unfold bind, call, try_catch.
  destruct (rewind env data) as [data' | e]; [| done].
  by destruct (build_index env params data').
Qed.

Lemma continuation_one_call env params (callback : JSValue -> M unit) err data w :
  (exists e wk,
      loadData_continuation env params callback err data w
      = callback e {| worker := wk; trace := trace w |})
  \/ (exists e,
         loadData_continuation env params callback err data w = (Throw e, w)).
Proof.
  rewrite continuation_run.
  assert (w = {| worker := worker w; trace := trace w |}) as Hw by (by destruct w).
  destruct (truthy err || negb (truthy data)).
  { left. exists err, (worker w). by rewrite <- Hw. }
  destruct (negb (String.eqb (typeof data) "object")).
  { left. exists invalid_geojson, (worker w). by rewrite <- Hw. }
  destruct (rewind env data) as [data' | e]; [| eauto].
  destruct (build_index env params data') as [index | e].
  - left. eauto.
  - left. exists e, (worker w). by rewrite <- Hw.
Qed.

(** X7: with a callback that returns normally, [loadData] with the
    built-in loader does not throw to its caller and is exactly one call
    of the callback, made after the worker was updated (if it was), or,
    only when the data came from a url, one uncaught exception and no
    call.  The callback is called inside the [try] of [loadGeoJSON]:
    when the continuation throws on literal text, be it the normaliser
    or the callback itself, the callback is called (again) with the
    invalid-input error, so a callback that throws is called twice. *)
Theorem loadData_builtin_single_event env params (callback : JSValue -> M unit) w :
  ((forall err w0, exists w1, callback err w0 = (Ok tt, w1)) ->
   (exists e wk,
       loadData env (loadGeoJSON env) params callback w
       = callback e {| worker := wk; trace := trace w |})
   \/ (exists e u,
          url_given params = Some u
          /\ loadData env (loadGeoJSON env) params callback w
             = (Ok tt, record w [Uncaught e])))
  /\ (forall text parsed e w1,
        url_given params = None ->
        lp_data params = JStr text ->
        JSON_parse env text = Ok parsed ->
        loadData_continuation env params callback JNull parsed w = (Throw e, w1) ->
        loadData env (loadGeoJSON env) params callback w
        = callback invalid_geojson w1).
Proof.
  split.
  - intros Hreturns.
    assert (forall w0, loadData_continuation env params callback
                         invalid_geojson JUndefined w0
                       = callback invalid_geojson w0) as Hinvalid
      by (intros w0; by rewrite continuation_run).
    assert (w = {| worker := worker w; trace := trace w |}) as Hw
      by (by destruct w).
    unfold loadData, loadGeoJSON.
    destruct (url_given params) as [u |].
    + unfold ajax_getJSON. destruct (fetched env u) as [err data].
      unfold later.
      destruct (continuation_one_call env params callback err data w)
        as [(e & wk & ->) | (e & ->)].
      * left. exists e, wk.
        by destruct (Hreturns e {| worker := wk; trace := trace w |}) as [w1 ->].
      * right. eauto.
    + destruct (lp_data params) as [| | | | text | | | |];
        try (left; exists invalid_geojson, (worker w);
             by rewrite Hinvalid, <- Hw).
      unfold try_catch, bind, call.
      destruct (JSON_parse env text) as [parsed | e].
      * destruct (continuation_one_call env params callback JNull parsed w)
          as [(e & wk & ->) | (e & ->)].
        -- left. exists e, wk.
           by destruct (Hreturns e {| worker := wk; trace := trace w |}) as [w1 ->].
        -- left. exists invalid_geojson, (worker w). by rewrite Hinvalid, <- Hw.
      * left. exists invalid_geojson, (worker w). by rewrite Hinvalid, <- Hw.
  - intros text parsed e w1 Hurl Hdata Hparse Hthrows.
    unfold loadData, loadGeoJSON. rewrite Hurl, Hdata.
    unfold try_catch, bind, call. rewrite Hparse, Hthrows.
    by rewrite continuation_run.
Qed.

Lemma loadData_builtin_single_event_witness :
  ((exists e wk,
       loadData ex_env (loadGeoJSON ex_env)
         (ex_load_params JUndefined (Some "/empty.json") false)
         data_callback (start fresh)
       = data_callback e {| worker := wk; trace := [] |})
   \/ (exists e u,
          url_given (ex_load_params JUndefined (Some "/empty.json") false) = Some u
          /\ loadData ex_env (loadGeoJSON ex_env)
               (ex_load_params JUndefined (Some "/empty.json") false)
               data_callback (start fresh)
             = (Ok tt, record (start fresh) [Uncaught e])))
  /\ loadData ex_env (loadGeoJSON ex_env)
       (ex_load_params (JStr "null") None false)
       ex_throwing_callback (start fresh)
     = (Throw (JErr "Error" "callback failed"),
        record (start fresh) [DataCallback JNull; DataCallback invalid_geojson]).
Proof.
  split.
  - destruct (loadData_builtin_single_event ex_env
                (ex_load_params JUndefined (Some "/empty.json") false)
                data_callback (start fresh)) as [Honce _].
    apply Honce. intros err w0. eexists. reflexivity.
  - destruct (loadData_builtin_single_event ex_env
                (ex_load_params (JStr "null") None false) ex_throwing_callback
                (start fresh)) as [_ Htwice].
    rewrite (Htwice "null" JNull (JErr "Error" "callback failed")
               (record (start fresh) [DataCallback JNull]));
      reflexivity.
Defined.

(** ** The built-in loader *)

(** X8: without a url, literal data that is not text is refused, an
    object included: the invalid-input error is reported and the worker
    is unchanged. *)
Theorem loadData_literal_not_text env params w :
  url_given params = None ->
  (forall text, lp_data params <> JStr text) ->
  loadData env (loadGeoJSON env) params data_callback w
  = (Ok tt, record w [DataCallback invalid_geojson]).
Proof.
  intros Hurl Hdata. rewrite loadData_builtin. unfold delivered. rewrite Hurl.
  destruct (lp_data params) as [| | | | text | | | |];
    try (by rewrite continuation_rejected).
  by destruct (Hdata text).
Qed.

Lemma loadData_literal_not_text_witness :
  loadData ex_env (loadGeoJSON ex_env) (ex_load_params empty_collection None false)
    data_callback (start fresh)
  = (Ok tt, record (start fresh) [DataCallback invalid_geojson]).
Proof.
  apply loadData_literal_not_text; [reflexivity | discriminate].
Defined.

(** X9: literal text that JSON.parse refuses is reported as the
    invalid-input error, not as the parser's own exception, and the
    worker is unchanged. *)
Theorem loadData_unparsable_text env params text e w :
  url_given params = None ->
  lp_data params = JStr text ->
  JSON_parse env text = Throw e ->
  loadData env (loadGeoJSON env) params data_callback w
  = (Ok tt, record w [DataCallback invalid_geojson]).
Proof.
  intros Hurl Hdata Hparse. rewrite loadData_builtin. unfold delivered.
  rewrite Hurl, Hdata, Hparse. by rewrite continuation_rejected.
Qed.

Lemma loadData_unparsable_text_witness :
  loadData ex_env (loadGeoJSON ex_env) (ex_load_params (JStr "{") None false)
    data_callback (start (ex_worker zoom2_index))
  = (Ok tt, record (start (ex_worker zoom2_index)) [DataCallback invalid_geojson]).
Proof.
  apply (loadData_unparsable_text ex_env _ "{"
           (JErr "SyntaxError" "Unexpected token")); reflexivity.
Defined.

(** X10: when a url is given, the literal [data] plays no part: the run
    is the same whatever [data] holds. *)
Theorem loadData_url_wins env params data u w :
  url_given params = Some u ->
  loadData env (loadGeoJSON env) (with_data params data) data_callback w
  = loadData env (loadGeoJSON env) params data_callback w.
Proof.
  intros Hurl. unfold loadData, loadGeoJSON.
  change (url_given (with_data params data)) with (url_given params).
  rewrite Hurl. reflexivity.
Qed.

Lemma loadData_url_wins_witness :
  loadData ex_env (loadGeoJSON ex_env)
    (with_data (ex_load_params JUndefined (Some "/empty.json") false) (JStr "null"))
    data_callback (start fresh)
  = loadData ex_env (loadGeoJSON ex_env)
      (ex_load_params JUndefined (Some "/empty.json") false)
      data_callback (start fresh).
Proof.
  apply (loadData_url_wins ex_env _ (JStr "null") "/empty.json"). reflexivity.
Defined.

(** X11: an empty url counts as no url: the literal data is used. *)
Theorem loadData_empty_url env params w :
  loadData env (loadGeoJSON env) (with_url params (Some "")) data_callback w
  = loadData env (loadGeoJSON env) (with_url params None) data_callback w.
Proof. reflexivity. Qed.

(** X12: an error of the fetcher is handed to the callback of
    [loadData] as it is, whatever data came with it, and the worker is
    unchanged. *)
Theorem loadData_fetch_error_verbatim env params u err data w :
  url_given params = Some u ->
  fetched env u = (err, data) ->
  truthy err = true ->
  loadData env (loadGeoJSON env) params data_callback w
  = (Ok tt, record w [DataCallback err]).
Proof.
  intros Hurl Hfetched Herr. rewrite loadData_builtin. unfold delivered.
  rewrite Hurl, Hfetched. simpl.
  rewrite continuation_rejected; [done |]. by rewrite Herr.
Qed.

Lemma loadData_fetch_error_verbatim_witness :
  loadData ex_env (loadGeoJSON ex_env)
    (ex_load_params JUndefined (Some "/missing.json") false)
    data_callback (start fresh)
  = (Ok tt, record (start fresh) [DataCallback (JErr "Error" "Not Found")]).
Proof.
  apply (loadData_fetch_error_verbatim ex_env _ "/missing.json"
           (JErr "Error" "Not Found") JUndefined); reflexivity.
Defined.

(** ** What loadData does with what the loader delivers *)

(** X13: data that is truthy but no object (a number other than 0,
    [true], a non-empty string) is refused with the invalid-input error;
    the worker is unchanged and neither the normaliser nor an engine is
    what decides it. *)
Theorem loadData_truthy_primitive env (loader : LoadGeoJSON) params err data w :
  (forall callback, loader params callback = callback err data) ->
  truthy err = false ->
  truthy data = true ->
  typeof data <> "object" ->
  loadData env loader params data_callback w
  = (Ok tt, record w [DataCallback invalid_geojson]).
Proof.
  intros Hloader Herr Hdata Htype. unfold loadData. rewrite Hloader.
  apply continuation_not_object.
  - by rewrite Herr, Hdata.
  - by apply String.eqb_neq.
Qed.

Lemma loadData_truthy_primitive_witness :
  loadData ex_env (ex_direct_loader (JNum 42)) (ex_load_params JUndefined None false)
    data_callback (start fresh)
  = (Ok tt, record (start fresh) [DataCallback invalid_geojson]).
Proof.
  apply (loadData_truthy_primitive ex_env _ _ JNull (JNum 42));
    [reflexivity | reflexivity | reflexivity | discriminate].
Defined.

(** X14: an exception thrown while the index is built is caught and
    handed to the callback as it is; the index entry and the loaded-tile
    tracking of the source stay as they were. *)
Theorem loadData_engine_failure env (loader : LoadGeoJSON) params err data data' e w :
  (forall callback, loader params callback = callback err data) ->
  truthy err = false ->
  truthy data = true ->
  typeof data = "object" ->
  rewind env data = Ok data' ->
  build_index env params data' = Throw e ->
  loadData env loader params data_callback w
  = (Ok tt, record w [DataCallback e]).
Proof.
  intros Hloader Herr Hdata Htype Hrewind Hbuild. unfold loadData.
  rewrite Hloader.
  apply (continuation_build_throws _ _ _ _ _ data' e); try done.
  - by rewrite Herr, Hdata.
  - by rewrite Htype.
Qed.

Lemma loadData_engine_failure_witness :
  loadData ex_env (ex_direct_loader (JObj [])) (ex_load_params JUndefined None false)
    data_callback (start (ex_worker zoom2_index))
  = (Ok tt, record (start (ex_worker zoom2_index)) [DataCallback invalid_geojson]).
Proof.
  apply (loadData_engine_failure ex_env _ _ JNull (JObj []) (JObj []));
    reflexivity.
Defined.

(** X15: [loadData] does not look at [clusterMapProperties]: it builds
    the cluster index from [superclusterOptions] as they are (the
    aggregation functions are synthesized in [_indexData] only), so the
    run is the same whatever [clusterMapProperties] holds. *)
Theorem loadData_ignores_clusterMapProperties env params keys w :
  loadData env (loadGeoJSON env) (with_clusterMapProperties params keys)
    data_callback w
  = loadData env (loadGeoJSON env) params data_callback w.
Proof. reflexivity. Qed.

Lemma continuation_same_engines env env' params err data w :
  rewind env' = rewind env ->
  (forall value, build_index env' params value = build_index env params value) ->
  loadData_continuation env' params data_callback err data w
  = loadData_continuation env params data_callback err data w.
Proof.
  intros Hrewind Hbuild. unfold loadData_continuation.
  destruct (truthy err || negb (truthy data)); [done |].
  destruct (negb (String.eqb (typeof data) "object")); [done |].
  unfold bind, call, try_catch. rewrite Hrewind.
  destruct (rewind env data) as [data' | e]; [| done].
  by rewrite Hbuild.
Qed.

(** X16: the [cluster] flag picks the engine: in cluster mode geojson-vt
    is never consulted, and without it supercluster is never consulted;
    the run is the same whatever the other engine would do. *)
Theorem loadData_engine_selection env params w :
  (lp_cluster params = true ->
   forall engine,
     loadData (with_geojsonvt env engine) (loadGeoJSON (with_geojsonvt env engine))
       params data_callback w
     = loadData env (loadGeoJSON env) params data_callback w)
  /\ (lp_cluster params = false ->
      forall engine,
        loadData (with_supercluster env engine)
          (loadGeoJSON (with_supercluster env engine)) params data_callback w
        = loadData env (loadGeoJSON env) params data_callback w).
Proof.
  split; intros Hcluster engine; rewrite !loadData_builtin.
  - change (delivered (with_geojsonvt env engine) params)
      with (delivered env params).
    rewrite (continuation_same_engines env (with_geojsonvt env engine));
      [done | done |].
    intros value. unfold build_index. by rewrite Hcluster.
  - change (delivered (with_supercluster env engine) params)
      with (delivered env params).
    rewrite (continuation_same_engines env (with_supercluster env engine));
      [done | done |].
    intros value. unfold build_index. by rewrite Hcluster.
Qed.

Lemma loadData_engine_selection_witness :
  loadData ex_env_zoom2 (loadGeoJSON ex_env_zoom2)
    (ex_load_params JUndefined (Some "/empty.json") true)
    data_callback (start fresh)
  = loadData ex_env (loadGeoJSON ex_env)
      (ex_load_params JUndefined (Some "/empty.json") true)
      data_callback (start fresh).
Proof.
  destruct (loadData_engine_selection ex_env
              (ex_load_params JUndefined (Some "/empty.json") true) (start fresh))
    as [Hcluster _].
  apply (Hcluster eq_refl (fun _ _ => Ok zoom2_index)).
Defined.

(** ** How the operations compose *)

Lemma replace_source_twice source index index' wk :
  replace_source source index' (replace_source source index wk)
  = replace_source source index' wk.
Proof.
  unfold replace_source, reset_loaded, set_index. simpl.
  by rewrite !insert_insert_eq.
Qed.

(** X17: of two [loadData] for the same source, the one that takes
    effect last decides, whichever was called first: when it installs
    an index, the worker is the one that call alone would have left,
    whatever the other call did before it. *)
Theorem loadData_last_effect_wins env earlier later_params index w :
  lp_source earlier = lp_source later_params ->
  installs env later_params (delivered env later_params).1
    (delivered env later_params).2 = Some index ->
  worker (after env [ActLoadData earlier; ActLoadData later_params] w)
  = worker (after env [ActLoadData later_params] w).
Proof.
  intros Hsource Hinstalls. unfold after. simpl.
  rewrite !loadData_builtin_worker, Hinstalls.
  destruct (installs env earlier _ _) as [index' |]; [| done].
  rewrite Hsource. apply replace_source_twice.
Qed.

Lemma loadData_last_effect_wins_witness :
  worker (after ex_env_zoom2
            [ActLoadData (ex_load_params JUndefined (Some "/empty.json") true);
             ActLoadData (ex_load_params JUndefined (Some "/empty.json") false)]
            (start (ex_worker empty_index)))
  = worker (after ex_env_zoom2
              [ActLoadData (ex_load_params JUndefined (Some "/empty.json") false)]
              (start (ex_worker empty_index))).
Proof.
  apply (loadData_last_effect_wins ex_env_zoom2 _ _ zoom2_index); reflexivity.
Defined.



(** X19: loading, removing and loading again the same data leaves the
    worker as one load does: [removeSource] keeps nothing that a later
    [loadData] would not overwrite. *)
Theorem loadData_after_removeSource env params index w :
  installs env params (delivered env params).1 (delivered env params).2
  = Some index ->
  worker (after env [ActLoadData params; ActRemoveSource (lp_source params);
                     ActLoadData params] w)
  = worker (after env [ActLoadData params] w).
Proof.
  intros Hinstalls. unfold after. simpl.
  rewrite loadData_builtin_worker, Hinstalls.
  rewrite removeSource_run. simpl.
  rewrite (loadData_builtin_worker env params), Hinstalls.
  unfold replace_source, reset_loaded, set_index. simpl.
  by rewrite insert_delete_eq, !insert_insert_eq.
Qed.

Lemma loadData_after_removeSource_witness :
  worker (after ex_env_zoom2
            [ActLoadData (ex_load_params JUndefined (Some "/empty.json") false);
             ActRemoveSource "places";
             ActLoadData (ex_load_params JUndefined (Some "/empty.json") false)]
            (start fresh))
  = worker (after ex_env_zoom2
              [ActLoadData (ex_load_params JUndefined (Some "/empty.json") false)]
              (start fresh)).
Proof.
  apply (loadData_after_removeSource ex_env_zoom2
           (ex_load_params JUndefined (Some "/empty.json") false) zoom2_index).
  reflexivity.
Defined.

(** X20: the loaded-tile tracking of an identity is only ever lost
    through a [loadData] for its source that installs an index: no tile
    query, no removal, no recording and no failed [loadData] turns the
    incremental path back into the full-load path. *)
Theorem tracking_lost_only_by_install env a w tile_params :
  reloadTile_path (worker w) tile_params = IncrementalReload ->
  reloadTile_path (worker (perform env a w).2) tile_params = FullLoad ->
  exists params index,
    a = ActLoadData params
    /\ lp_source params = tp_source tile_params
    /\ installs env params (delivered env params).1 (delivered env params).2
       = Some index.
Proof.
  rewrite !reloadTile_path_tracked, perform_tracked.
  destruct (tracked (worker w) (tp_source tile_params) (tp_uid tile_params));
    [intros _ | done].
  destruct a as [params | params | source uid tile | source]; try done.
  - destruct (installs env params _ _) as [index |] eqn:Hinstalls; [| done].
    destruct (String.eqb_spec (lp_source params) (tp_source tile_params));
      [| done].
    intros _. eauto.
  - by rewrite orb_true_r.
Qed.

Lemma tracking_lost_only_by_install_witness :
  exists params index,
    ActLoadData (ex_load_params JUndefined (Some "/empty.json") false)
    = ActLoadData params
    /\ lp_source params = "places"
    /\ installs ex_env params (delivered ex_env params).1
         (delivered ex_env params).2 = Some index.
Proof.
  apply (tracking_lost_only_by_install ex_env
           (ActLoadData (ex_load_params JUndefined (Some "/empty.json") false))
           (start (ex_worker zoom2_index)) ex_tile_params); reflexivity.
Defined.

(** ** Index construction in _indexData *)

(** X21: [_indexData] hands its callback a null error and the index
    when construction returns, and the caught exception and no index
    when it throws.  The success call is made inside the [try]: when the
    callback throws there, it is called a second time with its own
    exception.  With a callback that returns, that is exactly one
    call. *)
Theorem indexData_callback_protocol env data params
    (callback : JSValue -> option GeoJSONIndex -> M unit) w :
  _indexData env data params callback w
  = match index_construction env params data with
    | Throw e => callback e None w
    | Ok index =>
        match callback JNull (Some index) w with
        | (Throw e, w1) => callback e None w1
        | returned => returned
        end
    end.
Proof.
  unfold _indexData, index_construction, try_catch, bind, call.
  destruct (lp_cluster params).
  - destruct (cluster_options params) as [options | e]; [| done].
    by destruct (cluster_index env options data).
  - by destruct (geojsonvt env data (lp_geojsonVtOptions params)).
Qed.

(** X22: in cluster mode, [clusterMapProperties] without
    [superclusterOptions] fails before any engine is asked: the
    assignment of [initial] to the absent options throws, and the
    TypeError is handed to the callback. *)
Theorem indexData_missing_options env data params keys w :
  lp_cluster params = true ->
  lp_clusterMapProperties params = Some keys ->
  lp_superclusterOptions params = None ->
  _indexData env data params index_callback w
  = (Ok tt,
     record w [IndexCallback
                 (type_error "Cannot set property 'initial' of undefined") None]).
Proof.
  intros Hcluster Hkeys Hoptions.
  unfold _indexData, try_catch, bind, call, cluster_options.
  by rewrite Hcluster, Hkeys, Hoptions.
Qed.

Lemma indexData_missing_options_witness :
  _indexData ex_env empty_collection
    {| lp_url := None; lp_data := JUndefined; lp_source := "places";
       lp_cluster := true; lp_superclusterOptions := None;
       lp_geojsonVtOptions := JObj []; lp_clusterMapProperties := Some ["name"] |}
    index_callback (start fresh)
  = (Ok tt,
     record (start fresh)
       [IndexCallback
          (type_error "Cannot set property 'initial' of undefined") None]).
Proof.
  apply (indexData_missing_options ex_env empty_collection _ ["name"]);
    reflexivity.
Defined.

(** X23: in tile mode, or when no [clusterMapProperties] are given,
    [_indexData] builds exactly the index [loadData] builds from the
    same data and parameters, and reports the same exception when the
    engine throws. *)
Theorem indexData_agrees_with_loadData env data params w :
  lp_cluster params = false \/ lp_clusterMapProperties params = None ->
  _indexData env data params index_callback w
  = match build_index env params data with
    | Ok index => (Ok tt, record w [IndexCallback JNull (Some index)])
    | Throw e => (Ok tt, record w [IndexCallback e None])
    end.
Proof.
  intros Hmode. unfold _indexData, build_index, try_catch, bind, call.
  destruct (lp_cluster params) eqn:Hcluster.
  - destruct Hmode as [Hfalse | Hnone]; [done |].
    unfold cluster_options. rewrite Hnone.
    by destruct (cluster_index env (lp_superclusterOptions params) data).
  - by destruct (geojsonvt env data (lp_geojsonVtOptions params)).
Qed.

Lemma indexData_agrees_with_loadData_witness :
  _indexData ex_env_zoom2 empty_collection
    (ex_load_params JUndefined None false) index_callback (start fresh)
  = (Ok tt, record (start fresh) [IndexCallback JNull (Some zoom2_index)]).
Proof.
  rewrite (indexData_agrees_with_loadData ex_env_zoom2 empty_collection
             (ex_load_params JUndefined None false) (start fresh));
    [reflexivity | by left].
Defined.

(** ** The synthesized reduce *)

(** X24: on a feature whose [properties] are null, [reduce] throws a
    TypeError as soon as one key is listed, before it touches the
    accumulator; with no key listed it returns the accumulator as it
    is. *)
Theorem synthesized_reduce_null_properties keys (accumulated : Accumulator) :
  synthesized_reduce keys accumulated None
  = match keys with
    | [] => Ok accumulated
    | _ :: _ => Throw (type_error "Cannot read property of null")
    end.
Proof. by destruct keys. Qed.

(** X25: [reduce] returns only if the accumulator holds a sequence under
    every listed key for which the feature has a truthy value: with such
    a key missing from the accumulator, or holding something else, it
    throws. *)
Theorem synthesized_reduce_needs_sequences keys (fields : gmap string JSValue) :
  forall (accumulated result : Accumulator),
    synthesized_reduce keys accumulated (Some fields) = Ok result ->
    forall k,
      k ∈ keys ->
      truthy (default JUndefined (fields !! k)) = true ->
      exists items, accumulated !! k = Some (JArr items).
Proof.
  unfold synthesized_reduce.
  induction keys as [| key keys IH]; intros accumulated result Hrun k Hin Htruthy.
  { by apply elem_of_nil in Hin. }
  simpl in Hrun.
  destruct (truthy (props_value fields key)) eqn:Hkey.
  - unfold push in Hrun.
    destruct (accumulated !! key) as [[| | | | | items | | |] |] eqn:Hitems;
      try discriminate Hrun; try (by destruct (inherited key)).
    destruct (decide (k = key)) as [-> | Hne]; [eauto |].
    apply elem_of_cons in Hin as [Heq | Hin]; [done |].
    destruct (IH _ _ Hrun k Hin Htruthy) as [items' Hitems'].
    rewrite lookup_insert_ne in Hitems' by done. eauto.
  - apply elem_of_cons in Hin as [-> | Hin]; [| by apply (IH _ _ Hrun)].
    unfold props_value in Hkey.
    destruct (fields !! key); simpl in Htruthy; congruence.
Qed.

Lemma synthesized_reduce_needs_sequences_witness :
  exists items,
    synthesized_initial ["name"] tt !! "name" = Some (JArr items).
Proof.
  apply (synthesized_reduce_needs_sequences ["name"] {[ "name" := JStr "A" ]}
           (synthesized_initial ["name"] tt)
           {[ "name" := JArr [JStr "A"] ]}).
  - reflexivity.
  - by left.
  - reflexivity.
Defined.

(** X26: a feature for which [props[key]] is falsy under every listed
    key (own values and members inherited from [Object.prototype]
    alike) leaves the accumulator as it is, whatever the accumulator
    holds. *)
Theorem synthesized_reduce_nothing_to_add keys (fields : gmap string JSValue)
    (accumulated : Accumulator) :
  (forall k, k ∈ keys -> truthy (props_value fields k) = false) ->
  synthesized_reduce keys accumulated (Some fields) = Ok accumulated.
Proof.
  unfold synthesized_reduce.
  induction keys as [| key keys IH]; intros Hfalsy; [done |].
  simpl. rewrite (Hfalsy key) by left.
  apply IH. intros k Hin. apply Hfalsy. by right.
Qed.

Lemma synthesized_reduce_nothing_to_add_witness :
  synthesized_reduce ["name"; "kind"] ∅ (Some {[ "name" := JNum 0; "size" := JNum 3 ]})
  = Ok ∅.
Proof.
  apply synthesized_reduce_nothing_to_add.
  intros k Hin.
  apply elem_of_cons in Hin as [-> | Hin]; [reflexivity |].
  apply list_elem_of_singleton in Hin as ->. reflexivity.
Defined.


